(** * The invoice dashboard: filtering, aggregation, pagination and facets

    A shallow embedding of the data pipeline of
    [client/src/pages/Dashboard.tsx]: the [filteredData] memo with its
    [setCurrentPage(1)] effect, the [stats] memo, [totalPages],
    [currentData], [handlePageChange] and the [unique...] facet memos.

    The first part models the pieces of the JavaScript runtime the
    component calls (strings as UTF-16 code units, numbers as IEEE 754
    binary64, [Date] time values, [Array], [Set] and [Math] methods); the
    second part is the component itself; the theorems come last.

    Around the pipeline, the file also embeds the rest of the dashboard
    ([clearFilters], [hasActiveFilters], the pagination bar, file
    choice and the download query), [validateForm] of the login page,
    and the token storage and request interceptors of [utils]. *)

From Stdlib Require Import ZArith NArith List Bool Lia Floats Ascii String.
From Stdlib Require Import Sorted Permutation DecimalString DecimalZ.
From stdpp Require Import list gmap.
Import ListNotations.

Local Open Scope Z_scope.

(** ** The JavaScript runtime *)

Module JS.

(** *** Strings

    A string value is a finite sequence of 16-bit code units. *)

Definition jsstring := list N.

(** ASCII literals, for examples. *)
Definition lit (s : string) : jsstring :=
  map N_of_ascii (list_ascii_of_string s).

(** [ToBoolean] on a string: only the empty string is falsy. *)
Definition truthy (s : jsstring) : bool :=
  match s with
  | [] => false
  | _ :: _ => true
  end.

(** Strict equality [===] on two strings. *)
Fixpoint String_eqb (a b : jsstring) : bool :=
  match a, b with
  | [], [] => true
  | c :: a', d :: b' => (c =? d)%N && String_eqb a' b'
  | _, _ => false
  end.

(** The relational operator [<] on two strings: code units compared
    position by position, a proper prefix being smaller. *)
Fixpoint String_ltb (a b : jsstring) : bool :=
  match a, b with
  | _, [] => false
  | [], _ :: _ => true
  | c :: a', d :: b' => (c <? d)%N || ((c =? d)%N && String_ltb a' b')
  end.

(** The order [<] on strings, as a relation. *)
Definition String_lt (a b : jsstring) : Prop := String_ltb a b = true.

Fixpoint startsWith (s p : jsstring) : bool :=
  match p, s with
  | [], _ => true
  | _ :: _, [] => false
  | c :: p', d :: s' => (c =? d)%N && startsWith s' p'
  end.

(** [String.prototype.includes] from position 0. *)
Fixpoint includes (s p : jsstring) : bool :=
  startsWith s p ||
  match s with
  | [] => false
  | _ :: s' => includes s' p
  end.

(** White space and line terminators, the code units [trim] strips. *)
Definition isWhiteSpace (c : N) : bool :=
  ((9 <=? c) && (c <=? 13) || (c =? 32) || (c =? 160) || (c =? 5760)
   || (8192 <=? c) && (c <=? 8202) || (c =? 8232) || (c =? 8233)
   || (c =? 8239) || (c =? 8287) || (c =? 12288) || (c =? 65279))%N.

Fixpoint trimStart (s : jsstring) : jsstring :=
  match s with
  | [] => []
  | c :: s' => if isWhiteSpace c then trimStart s' else s
  end.

Definition trimEnd (s : jsstring) : jsstring := rev (trimStart (rev s)).

Definition trim (s : jsstring) : jsstring := trimEnd (trimStart s).

(** *** Numbers

    A number is a binary64 float.  A record field typed [number] holds,
    at run time, a number, [null] or [undefined] (the component tests for
    all three). *)

Inductive value : Type :=
| Undefined
| Null
| Num (f : float).

Definition ToNumber (v : value) : float :=
  match v with
  | Undefined => nan
  | Null => 0%float
  | Num f => f
  end.

(** The global [isNaN]. *)
Definition isNaN (v : value) : bool := is_nan (ToNumber v).

(** [v !== null] and [v !== undefined]. *)
Definition isNull (v : value) : bool :=
  match v with Null => true | _ => false end.

Definition isUndefined (v : value) : bool :=
  match v with Undefined => true | _ => false end.

(** [a < b] and [a > b] on values: both operands go through [ToNumber];
    a comparison with NaN is false. *)
Definition lt (a b : value) : bool := (ToNumber a <? ToNumber b)%float.
Definition gt (a b : value) : bool := (ToNumber b <? ToNumber a)%float.

(** An array length as a number. *)
Definition float_of_nat (n : nat) : float :=
  of_uint63 (Uint63.of_Z (Z.of_nat n)).

Definition isPosZero (f : float) : bool :=
  match classify f with PZero => true | _ => false end.

Definition isNegZero (f : float) : bool :=
  match classify f with NZero => true | _ => false end.

(** [Math.max(...args)]: NaN if any argument is NaN, otherwise the
    largest, starting from -Infinity, with +0 above -0. *)
Definition Math_max (args : list value) : float :=
  let coerced := map ToNumber args in
  if existsb is_nan coerced then nan
  else fold_left
         (fun highest n =>
            if isPosZero n && isNegZero highest then n
            else if (highest <? n)%float then n else highest)
         coerced neg_infinity.

(** [Math.min(...args)], dually, starting from +Infinity, with -0 below +0. *)
Definition Math_min (args : list value) : float :=
  let coerced := map ToNumber args in
  if existsb is_nan coerced then nan
  else fold_left
         (fun lowest n =>
            if isNegZero n && isPosZero lowest then n
            else if (n <? lowest)%float then n else lowest)
         coerced infinity.

(** [Math.ceil(a / b)] for an array length [a] and a positive integer
    [b]: lengths are below 2^32, where the binary64 quotient of two
    integers never rounds across an integer, so the result is the
    integer ceiling of the exact quotient. *)
Definition Math_ceil_div (a b : Z) : Z := - ((- a) / b).

(** *** Arrays and sets *)

(** A relative index of [slice]: negative counts from the end. *)
Definition relativeIndex (len k : Z) : Z :=
  if k <? 0 then Z.max (len + k) 0 else Z.min k len.

(** [Array.prototype.slice(start, end)] with integer arguments. *)
Definition Array_slice {A : Type} (l : list A) (start end_ : Z) : list A :=
  let len := Z.of_nat (length l) in
  let k := relativeIndex len start in
  let final := relativeIndex len end_ in
  firstn (Z.to_nat (final - k)) (skipn (Z.to_nat k) l).

(** [Array.from(new Set(l))] on strings: the distinct elements in order
    of first insertion. *)
Definition Set_has (s : list jsstring) (x : jsstring) : bool :=
  existsb (String_eqb x) s.

Definition Set_add (s : list jsstring) (x : jsstring) : list jsstring :=
  if Set_has s x then s else s ++ [x].

Definition Set_from (l : list jsstring) : list jsstring :=
  fold_left Set_add l [].

Definition Set_size (s : list jsstring) : nat := length s.

(** [Array.prototype.sort()] without a comparator, on strings: ascending
    by [<] on code units.  The method is a stable sort, so its result is
    the one of a stable insertion sort. *)
Fixpoint sort_insert (x : jsstring) (l : list jsstring) : list jsstring :=
  match l with
  | [] => [x]
  | y :: l' => if String_ltb y x then y :: sort_insert x l' else x :: y :: l'
  end.

Definition Array_sort (l : list jsstring) : list jsstring :=
  fold_right sort_insert [] l.

(** *** Dates

    A [Date] object holds a time value: an integral number of
    milliseconds since 1970-01-01T00:00:00Z, or NaN (an invalid date),
    here [option Z] with [None] for NaN. *)

Definition timevalue := option Z.

Definition msPerDay : Z := 86400000.

Definition Day (t : Z) : Z := t / msPerDay.

Definition MakeTime (h m s ms : Z) : Z :=
  h * 3600000 + m * 60000 + s * 1000 + ms.

Definition MakeDate (day time : Z) : Z := day * msPerDay + time.

Definition TimeClip (t : timevalue) : timevalue :=
  match t with
  | None => None
  | Some v => if Z.abs v >? 8640000000000000 then None else Some v
  end.

Definition DayFromYear (y : Z) : Z :=
  365 * (y - 1970) + (y - 1969) / 4 - (y - 1901) / 100 + (y - 1601) / 400.

Definition InLeapYear (y : Z) : bool :=
  (y mod 4 =? 0) && (negb (y mod 100 =? 0) || (y mod 400 =? 0)).

(** Days of the year before the first of month [m] (1 to 12). *)
Definition daysBeforeMonth (leap : bool) (m : Z) : Z :=
  let l := if leap then 1 else 0 in
  match m with
  | 1 => 0 | 2 => 31 | 3 => 59 + l | 4 => 90 + l | 5 => 120 + l
  | 6 => 151 + l | 7 => 181 + l | 8 => 212 + l | 9 => 243 + l
  | 10 => 273 + l | 11 => 304 + l | _ => 334 + l
  end.

Definition daysInMonth (leap : bool) (m : Z) : Z :=
  match m with
  | 2 => if leap then 29 else 28
  | 4 | 6 | 9 | 11 => 30
  | _ => 31
  end.

(** The day number of the calendar date [y]-[m]-[d]. *)
Definition MakeDay (y m d : Z) : Z :=
  DayFromYear y + daysBeforeMonth (InLeapYear y) m + (d - 1).

Definition digit (c : N) : option Z :=
  if ((48 <=? c) && (c <=? 57))%N then Some (Z.of_N c - 48) else None.

Definition num2 (a b : N) : option Z :=
  x ← digit a; y ← digit b; Some (10 * x + y).

Definition num3 (a b c : N) : option Z :=
  x ← num2 a b; y ← digit c; Some (10 * x + y).

Definition num4 (a b c d : N) : option Z :=
  x ← num2 a b; y ← num2 c d; Some (100 * x + y).

(** The date part of the date-time string format: [YYYY], [YYYY-MM] or
    [YYYY-MM-DD] with the fields in range; the day number and what
    follows. *)
Definition isoDate (s : jsstring) : option (Z * jsstring) :=
  match s with
  | y1 :: y2 :: y3 :: y4 :: r =>
      y ← num4 y1 y2 y3 y4;
      match r with
      | 45%N :: m1 :: m2 :: r' =>
          m ← num2 m1 m2;
          if (1 <=? m) && (m <=? 12) then
            match r' with
            | 45%N :: d1 :: d2 :: r'' =>
                d ← num2 d1 d2;
                if (1 <=? d) && (d <=? daysInMonth (InLeapYear y) m)
                then Some (MakeDay y m d, r'')
                else None
            | _ => Some (MakeDay y m 1, r')
            end
          else None
      | _ => Some (MakeDay y 1 1, r)
      end
  | _ => None
  end.

(** The offset that may end a time: absent (local time), [Z], or
    [+HH:mm] / [-HH:mm]. *)
Definition isoOffset (s : jsstring) : option (option Z) :=
  match s with
  | [] => Some None
  | [90%N] => Some (Some 0)
  | [sg; h1; h2; 58%N; m1; m2] =>
      h ← num2 h1 h2; m ← num2 m1 m2;
      if (h <=? 23) && (m <=? 59) then
        if (sg =? 43)%N then Some (Some (MakeTime h m 0 0))
        else if (sg =? 45)%N then Some (Some (- MakeTime h m 0 0))
        else None
      else None
  | _ => None
  end.

(** The time part: [HH:mm], [HH:mm:ss] or [HH:mm:ss.sss], then the
    offset; milliseconds in the day and the offset. *)
Definition isoTime (s : jsstring) : option (Z * option Z) :=
  match s with
  | h1 :: h2 :: 58%N :: m1 :: m2 :: r =>
      h ← num2 h1 h2; m ← num2 m1 m2;
      if (h <=? 23) && (m <=? 59) then
        match r with
        | 58%N :: s1 :: s2 :: r' =>
            sec ← num2 s1 s2;
            if sec <=? 59 then
              match r' with
              | 46%N :: f1 :: f2 :: f3 :: r'' =>
                  ms ← num3 f1 f2 f3;
                  off ← isoOffset r'';
                  Some (MakeTime h m sec ms, off)
              | _ => off ← isoOffset r'; Some (MakeTime h m sec 0, off)
              end
            else None
        | _ => off ← isoOffset r; Some (MakeTime h m 0 0, off)
        end
      else None
  | _ => None
  end.

Section Zone.

(** The local time zone adjustment in milliseconds (local time is UTC
    plus this), taken as one offset for all instants. *)
Variable LocalTZA : Z.

(** What [Date.parse] makes of a string outside the date-time string
    format, which the language leaves to the implementation. *)
Variable legacyParse : jsstring -> timevalue.

Definition LocalTime (t : Z) : Z := t + LocalTZA.

Definition UTC (t : Z) : Z := t - LocalTZA.

(** A string in the date-time string format: a date alone is UTC; a
    date and a time without offset is local time. *)
Definition parseISO (s : jsstring) : option Z :=
  '(day, r) ← isoDate s;
  match r with
  | [] => Some (MakeDate day 0)
  | 84%N :: r' =>
      '(time, off) ← isoTime r';
      Some (match off with
            | Some o => MakeDate day time - o
            | None => UTC (MakeDate day time)
            end)
  | _ => None
  end.

Definition Date_parse (s : jsstring) : timevalue :=
  match parseISO s with
  | Some t => Some t
  | None => legacyParse s
  end.

(** [new Date(s)] for a string [s]. *)
Definition Date_new (s : jsstring) : timevalue := TimeClip (Date_parse s).

(** [d.setHours(h, m, s, ms)]: the time of day replaced, in local time. *)
Definition setHours (d : timevalue) (h m s ms : Z) : timevalue :=
  match d with
  | None => None
  | Some t =>
      TimeClip (Some (UTC (MakeDate (Day (LocalTime t)) (MakeTime h m s ms))))
  end.

End Zone.

(** [a < b] and [a > b] on two [Date] objects: their time values are
    compared as numbers, and a comparison with NaN is false. *)
Definition Date_lt (a b : timevalue) : bool :=
  match a, b with
  | Some x, Some y => x <? y
  | _, _ => false
  end.

Definition Date_gt (a b : timevalue) : bool := Date_lt b a.

End JS.

(** ** The component *)

Import JS.

(** [interface InvoiceData].  The string fields are strings, as typed;
    the amount [含税总价], typed [number], is a run-time value, since the
    component itself tests it against [null], [undefined] and NaN. *)
Record InvoiceData : Type := mkInvoice {
  发票号 : jsstring;
  开票公司 : jsstring;
  收票公司 : jsstring;
  时间 : jsstring;
  产品名称 : jsstring;
  默认规格 : option jsstring;
  数量 : float;
  含税总价 : value
}.

(** [interface AggregationStats]: the counts are array lengths and set
    sizes, the amounts are numbers. *)
Record AggregationStats : Type := mkStats {
  totalInvoices : nat;
  totalAmount : float;
  averageAmount : float;
  maxAmount : float;
  minAmount : float;
  companyCount : nat;
  productCount : nat
}.

Record DateRange : Type := mkDateRange { start : jsstring; end_ : jsstring }.

Record PriceRange : Type := mkPriceRange { min : jsstring; max : jsstring }.

(** The [useState] cells the pipeline reads and writes. *)
Record State : Type := mkState {
  invoiceData : list InvoiceData;
  searchKeyword : jsstring;
  selectedCompany : jsstring;
  selectedProduct : jsstring;
  selectedBillingCompany : jsstring;
  selectedInvoiceCompany : jsstring;
  dateRange : DateRange;
  priceRange : PriceRange;
  currentPage : Z
}.

(** The only cell written while rendering is [currentPage]: a
    computation that may call [setCurrentPage] threads it. *)
Definition Render (A : Type) : Type := Z -> A * Z.

Definition ret {A : Type} (a : A) : Render A := fun page => (a, page).

Definition bind {A B : Type} (c : Render A) (k : A -> Render B) : Render B :=
  fun page => let (a, page') := c page in k a page'.

Definition setCurrentPage (p : Z) : Render unit := fun _ => (tt, p).

Declare Scope render_scope.
Delimit Scope render_scope with render.
Notation "x <- c ;; k" := (bind c (fun x => k))
  (at level 100, c at next level, right associativity) : render_scope.
Notation "c ;; k" := (bind c (fun _ => k))
  (at level 100, right associativity) : render_scope.

(** [Array.prototype.filter] with a callback that has an effect: the
    callback runs on every element, in order. *)
Fixpoint Array_filter {A : Type} (f : A -> Render bool) (l : list A)
  : Render (list A) :=
  match l with
  | [] => ret []
  | x :: l' =>
      (keep <- f x ;;
       rest <- Array_filter f l' ;;
       ret (if keep then x :: rest else rest))%render
  end.

Definition pageSize : Z := 10.

Section Dashboard.

(** [String.prototype.toLowerCase] and the global [parseFloat], taken
    from the runtime, and the time zone and date parser of [JS]. *)
Variable toLowerCase : jsstring -> jsstring.
Variable parseFloat : jsstring -> float.
Variable LocalTZA : Z.
Variable legacyParse : jsstring -> timevalue.

Abbreviation Date_new := (JS.Date_new LocalTZA legacyParse).
Abbreviation setHours := (JS.setHours LocalTZA).

(** *** Facets: [uniqueCompanies], [uniqueProducts],
    [uniqueBillingCompanies], [uniqueInvoiceCompanies] *)

Definition uniqueCompanies (invoiceData : list InvoiceData) : list jsstring :=
  Array_sort (Set_from (List.filter truthy (map 开票公司 invoiceData))).

Definition uniqueProducts (invoiceData : list InvoiceData) : list jsstring :=
  Array_sort (Set_from (List.filter truthy (map 产品名称 invoiceData))).

Definition uniqueBillingCompanies (invoiceData : list InvoiceData)
  : list jsstring :=
  Array_sort (Set_from (List.filter truthy (map 收票公司 invoiceData))).

Definition uniqueInvoiceCompanies (invoiceData : list InvoiceData)
  : list jsstring :=
  Array_sort (Set_from (List.filter truthy (map 开票公司 invoiceData))).

(** *** [filteredData] *)

Section Callback.

Variable st : State.
Variable item : InvoiceData.

Definition matchesKeyword : bool :=
  let keyword := toLowerCase (searchKeyword st) in
  (truthy (发票号 item) && includes (toLowerCase (发票号 item)) keyword)
  || (truthy (开票公司 item) && includes (toLowerCase (开票公司 item)) keyword)
  || (truthy (收票公司 item) && includes (toLowerCase (收票公司 item)) keyword)
  || (truthy (产品名称 item) && includes (toLowerCase (产品名称 item)) keyword).

(** Each block of the callback, [true] when it executes [return false]. *)
Definition keywordRejects : bool :=
  if truthy (trim (searchKeyword st)) then negb matchesKeyword else false.

Definition productRejects : bool :=
  truthy (selectedProduct st)
  && negb (String_eqb (产品名称 item) (selectedProduct st)).

Definition billingCompanyRejects : bool :=
  truthy (selectedBillingCompany st)
  && negb (String_eqb (收票公司 item) (selectedBillingCompany st)).

Definition invoiceCompanyRejects : bool :=
  truthy (selectedInvoiceCompany st)
  && negb (String_eqb (开票公司 item) (selectedInvoiceCompany st)).

Definition dateRejects : bool :=
  if truthy (start (dateRange st)) || truthy (end_ (dateRange st)) then
    let itemDate := Date_new (时间 item) in
    if truthy (start (dateRange st))
       && Date_lt itemDate (Date_new (start (dateRange st)))
    then true
    else if truthy (end_ (dateRange st))
            && Date_gt itemDate
                 (setHours (Date_new (end_ (dateRange st))) 23 59 59 999)
    then true
    else false
  else false.

Definition minPrice : float :=
  if truthy (min (priceRange st)) then parseFloat (min (priceRange st))
  else 0%float.

Definition maxPrice : float :=
  if truthy (max (priceRange st)) then parseFloat (max (priceRange st))
  else infinity.

Definition priceRejects : bool :=
  if truthy (min (priceRange st)) || truthy (max (priceRange st)) then
    lt (含税总价 item) (Num minPrice) || gt (含税总价 item) (Num maxPrice)
  else false.

(** The callback of [invoiceData.filter]: the early [return false]
    of each block, then [setCurrentPage(1); return true]. *)
Definition filterCallback : Render bool :=
  if keywordRejects then ret false
  else if productRejects then ret false
  else if billingCompanyRejects then ret false
  else if invoiceCompanyRejects then ret false
  else if dateRejects then ret false
  else if priceRejects then ret false
  else (setCurrentPage 1 ;; ret true)%render.

End Callback.

(** A record passes when no block of the callback rejects it. *)
Definition passesAll (st : State) (item : InvoiceData) : bool :=
  negb (keywordRejects st item)
  && negb (productRejects st item)
  && negb (billingCompanyRejects st item)
  && negb (invoiceCompanyRejects st item)
  && negb (dateRejects st item)
  && negb (priceRejects st item).

Definition filteredData (st : State) : Render (list InvoiceData) :=
  Array_filter (filterCallback st) (invoiceData st).

(** The filtered view of a state, and the page left by computing it. *)
Definition view (st : State) : list InvoiceData :=
  fst (filteredData st (currentPage st)).

Definition pageAfter (st : State) : Z :=
  snd (filteredData st (currentPage st)).

(** *** [totalPages], [currentData], [handlePageChange] *)

Definition totalPages (filtered : list InvoiceData) : Z :=
  Math_ceil_div (Z.of_nat (length filtered)) pageSize.

Definition currentData (filtered : list InvoiceData) (page : Z)
  : list InvoiceData :=
  Array_slice filtered ((page - 1) * pageSize) (page * pageSize).

Definition handlePageChange (filtered : list InvoiceData) (page : Z)
  : Render unit :=
  if (page <? 1) || (page >? totalPages filtered) then ret tt
  else setCurrentPage page.

(** *** [stats] *)

Definition zeroStats : AggregationStats :=
  mkStats 0 0%float 0%float 0%float 0%float 0 0.

Definition validAmount (amount : value) : bool :=
  negb (isNull amount) && negb (isUndefined amount) && negb (isNaN amount).

Definition amounts (filtered : list InvoiceData) : list value :=
  List.filter validAmount (map 含税总价 filtered).

Definition stats (filtered : list InvoiceData) : AggregationStats :=
  if (length filtered =? 0)%nat then zeroStats
  else
    let amounts := amounts filtered in
    if (length amounts =? 0)%nat then zeroStats
    else
      let totalAmount :=
        fold_left (fun sum amount => (sum + ToNumber amount)%float)
                  amounts 0%float in
      let companies := Set_from (map 开票公司 filtered) in
      let products := Set_from (map 产品名称 filtered) in
      {| totalInvoices := length filtered;
         totalAmount := totalAmount;
         averageAmount := (totalAmount / float_of_nat (length amounts))%float;
         maxAmount := Math_max amounts;
         minAmount := Math_min amounts;
         companyCount := Set_size companies;
         productCount := Set_size products |}.

(** [uniqueFilteredCompanies], over the filtered view. *)
Definition uniqueFilteredCompanies (filtered : list InvoiceData)
  : list jsstring :=
  Array_sort (Set_from (List.filter truthy (map 开票公司 filtered))).

End Dashboard.

(** [out] is the facet of [field] over [data]: strictly ascending (so
    without duplicates), and made of exactly the non-empty values the
    field takes in [data]. *)
Definition isFacet (field : InvoiceData -> jsstring)
  (data : list InvoiceData) (out : list jsstring) : Prop :=
  StronglySorted String_lt out
  /\ forall x, x ∈ out <-> x <> [] /\ exists r, r ∈ data /\ field r = x.

(** *** Changes of the predicate set

    Each input of the filter panel sets one cell; the next render
    recomputes [filteredData], whose effect on [currentPage] is the only
    other write. *)

Inductive PredicateChange : Type :=
| setSearchKeyword (keyword : jsstring)
| setSelectedProduct (product : jsstring)
| setSelectedBillingCompany (company : jsstring)
| setSelectedInvoiceCompany (company : jsstring)
| setDateRange (range : DateRange)
| setPriceRange (range : PriceRange).

Definition applyChange (c : PredicateChange) (st : State) : State :=
  match c with
  | setSearchKeyword k =>
      mkState (invoiceData st) k (selectedCompany st) (selectedProduct st)
        (selectedBillingCompany st) (selectedInvoiceCompany st)
        (dateRange st) (priceRange st) (currentPage st)
  | setSelectedProduct p =>
      mkState (invoiceData st) (searchKeyword st) (selectedCompany st) p
        (selectedBillingCompany st) (selectedInvoiceCompany st)
        (dateRange st) (priceRange st) (currentPage st)
  | setSelectedBillingCompany b =>
      mkState (invoiceData st) (searchKeyword st) (selectedCompany st)
        (selectedProduct st) b (selectedInvoiceCompany st)
        (dateRange st) (priceRange st) (currentPage st)
  | setSelectedInvoiceCompany i =>
      mkState (invoiceData st) (searchKeyword st) (selectedCompany st)
        (selectedProduct st) (selectedBillingCompany st) i
        (dateRange st) (priceRange st) (currentPage st)
  | setDateRange d =>
      mkState (invoiceData st) (searchKeyword st) (selectedCompany st)
        (selectedProduct st) (selectedBillingCompany st)
        (selectedInvoiceCompany st) d (priceRange st) (currentPage st)
  | setPriceRange p =>
      mkState (invoiceData st) (searchKeyword st) (selectedCompany st)
        (selectedProduct st) (selectedBillingCompany st)
        (selectedInvoiceCompany st) (dateRange st) p (currentPage st)
  end.

(** ** The rest of the dashboard

    [clearFilters], [hasActiveFilters], the four buttons of the
    pagination bar, and the events that make the component render
    again. *)

(** [clearFilters]: every filter cell back to its initial value.  It
    also resets [selectedItem], the record shown in the detail pane,
    which the pipeline never reads. *)
Definition clearFilters (st : State) : State :=
  mkState (invoiceData st) [] [] [] [] [] (mkDateRange [] [])
    (mkPriceRange [] []) (currentPage st).

(** [hasActiveFilters], as the condition it is used for. *)
Definition hasActiveFilters (st : State) : bool :=
  truthy (searchKeyword st)
  || truthy (selectedCompany st)
  || truthy (start (dateRange st))
  || truthy (end_ (dateRange st))
  || truthy (min (priceRange st))
  || truthy (max (priceRange st))
  || truthy (selectedBillingCompany st)
  || truthy (selectedInvoiceCompany st)
  || truthy (selectedProduct st).

(** [setInvoiceData], called once the records are fetched. *)
Definition setInvoiceData (data : list InvoiceData) (st : State) : State :=
  mkState data (searchKeyword st) (selectedCompany st) (selectedProduct st)
    (selectedBillingCompany st) (selectedInvoiceCompany st)
    (dateRange st) (priceRange st) (currentPage st).

Definition withCurrentPage (page : Z) (st : State) : State :=
  mkState (invoiceData st) (searchKeyword st) (selectedCompany st)
    (selectedProduct st) (selectedBillingCompany st)
    (selectedInvoiceCompany st) (dateRange st) (priceRange st) page.

(** The buttons of the pagination bar: first, previous, next, last. *)
Inductive PageButton : Type :=
| firstPage
| previousPage
| nextPage
| lastPage.

(** The page a button asks for: [1], [currentPage - 1],
    [currentPage + 1], [totalPages]. *)
Definition requestedPage (b : PageButton) (filtered : list InvoiceData)
  (currentPage : Z) : Z :=
  match b with
  | firstPage => 1
  | previousPage => currentPage - 1
  | nextPage => currentPage + 1
  | lastPage => totalPages filtered
  end.

(** [onClick] of a button. *)
Definition onClick (b : PageButton) (filtered : list InvoiceData)
  : Render unit :=
  fun currentPage =>
    handlePageChange filtered (requestedPage b filtered currentPage)
      currentPage.

(** [disabled] of a button. *)
Definition disabled (b : PageButton) (filtered : list InvoiceData)
  (currentPage : Z) : bool :=
  match b with
  | firstPage | previousPage => currentPage =? 1
  | nextPage | lastPage => currentPage =? totalPages filtered
  end.

(** The bar is rendered when [totalPages > 0]. *)
Definition paginationShown (filtered : list InvoiceData) : bool :=
  totalPages filtered >? 0.

(** Whether a setter call changes a dependency of the [filteredData]
    memo: a string cell changes when the new string differs; a range
    cell receives a new object each time. *)
Definition changesDependencies (c : PredicateChange) (st : State) : bool :=
  match c with
  | setSearchKeyword k => negb (String_eqb k (searchKeyword st))
  | setSelectedProduct p => negb (String_eqb p (selectedProduct st))
  | setSelectedBillingCompany b =>
      negb (String_eqb b (selectedBillingCompany st))
  | setSelectedInvoiceCompany i =>
      negb (String_eqb i (selectedInvoiceCompany st))
  | setDateRange _ => true
  | setPriceRange _ => true
  end.

(** The slot a setter writes is inactive: it holds what [clearFilters]
    puts there (for the keyword, anything [trim] empties). *)
Definition slotInactive (c : PredicateChange) (st : State) : Prop :=
  match c with
  | setSearchKeyword _ => trim (searchKeyword st) = []
  | setSelectedProduct _ => selectedProduct st = []
  | setSelectedBillingCompany _ => selectedBillingCompany st = []
  | setSelectedInvoiceCompany _ => selectedInvoiceCompany st = []
  | setDateRange _ => dateRange st = mkDateRange [] []
  | setPriceRange _ => priceRange st = mkPriceRange [] []
  end.

(** What happens to the component after it is mounted. *)
Inductive Event : Type :=
| Loaded (data : list InvoiceData)
| Changed (c : PredicateChange)
| Cleared
| Clicked (b : PageButton).

(** The state at mount: nothing loaded, nothing set, page 1. *)
Definition initialState : State :=
  mkState [] [] [] [] [] [] (mkDateRange [] []) (mkPriceRange [] []) 1.

Section Events.

Variable toLowerCase : jsstring -> jsstring.
Variable parseFloat : jsstring -> float.
Variable LocalTZA : Z.
Variable legacyParse : jsstring -> timevalue.

(** A render in which the memo is recomputed: its [setCurrentPage]
    calls are the only writes. *)
Definition recompute (st : State) : State :=
  withCurrentPage (pageAfter toLowerCase parseFloat LocalTZA legacyParse st) st.

(** One event: the cells it sets, then the render.  A click sets the
    page only, and the memo is not recomputed. *)
Definition step (st : State) (e : Event) : State :=
  match e with
  | Loaded data => recompute (setInvoiceData data st)
  | Changed c =>
      if changesDependencies c st then recompute (applyChange c st) else st
  | Cleared => recompute (clearFilters st)
  | Clicked b =>
      withCurrentPage
        (snd (onClick b (view toLowerCase parseFloat LocalTZA legacyParse st)
                (currentPage st)))
        st
  end.

Definition run (events : list Event) (st : State) : State :=
  fold_left step events st.

(** The page shown is a page of the view: at least 1, and at most
    [totalPages] as soon as the view has a record. *)
Definition pageInRange (st : State) : Prop :=
  1 <= currentPage st
  /\ (view toLowerCase parseFloat LocalTZA legacyParse st <> [] ->
      currentPage st
      <= totalPages (view toLowerCase parseFloat LocalTZA legacyParse st)).

End Events.

(** ** An order key for floats

    The comparison of two binary64 values other than NaN is the
    lexicographic comparison of these triples: the sign class, then the
    exponent and the mantissa, negated for negative values. *)

Definition SFkey (x : spec_float) : Z * Z * Z :=
  match x with
  | S754_nan => (0, 0, 0)
  | S754_zero _ => (0, 0, 0)
  | S754_infinity true => (-2, 0, 0)
  | S754_infinity false => (2, 0, 0)
  | S754_finite true m e => (-1, - e, - Z.pos m)
  | S754_finite false m e => (1, e, Z.pos m)
  end.

Definition lex_le (a b : Z * Z * Z) : Prop :=
  let '(a1, a2, a3) := a in
  let '(b1, b2, b3) := b in
  a1 < b1 \/ (a1 = b1 /\ (a2 < b2 \/ (a2 = b2 /\ a3 <= b3))).

Definition lex_lt (a b : Z * Z * Z) : Prop :=
  let '(a1, a2, a3) := a in
  let '(b1, b2, b3) := b in
  a1 < b1 \/ (a1 = b1 /\ (a2 < b2 \/ (a2 = b2 /\ a3 < b3))).

(** The steps of the folds of [Math_max] and [Math_min]. *)
Definition maxStep (highest n : float) : float :=
  if isPosZero n && isNegZero highest then n
  else if (highest <? n)%float then n else highest.

Definition minStep (lowest n : float) : float :=
  if isNegZero n && isPosZero lowest then n
  else if (n <? lowest)%float then n else lowest.

(** ** The login page

    [validateForm] of the two versions of [Login] (the same function in
    both), with the regular expression it tests the e-mail against. *)

(** Regular expressions over code units, as far as the pattern needs
    them: classes, concatenation, alternation, repetition. *)
Inductive regex : Type :=
| Empty
| Eps
| Class (p : N -> bool)
| Cat (r s : regex)
| Alt (r s : regex)
| Star (r : regex).

(** [r+]. *)
Definition Plus (r : regex) : regex := Cat r (Star r).

(** The strings a pattern matches from its first to its last code
    unit. *)
Inductive lang : regex -> jsstring -> Prop :=
| lang_eps : lang Eps []
| lang_class p c : p c = true -> lang (Class p) [c]
| lang_cat r s u v : lang r u -> lang s v -> lang (Cat r s) (u ++ v)
| lang_alt_l r s u : lang r u -> lang (Alt r s) u
| lang_alt_r r s u : lang s u -> lang (Alt r s) u
| lang_star_nil r : lang (Star r) []
| lang_star_cons r u v : lang r u -> lang (Star r) v -> lang (Star r) (u ++ v).

Fixpoint nullable (r : regex) : bool :=
  match r with
  | Empty => false
  | Eps => true
  | Class _ => false
  | Cat r s => nullable r && nullable s
  | Alt r s => nullable r || nullable s
  | Star _ => true
  end.

(** What is left of a pattern after the code unit [c]. *)
Fixpoint deriv (c : N) (r : regex) : regex :=
  match r with
  | Empty => Empty
  | Eps => Empty
  | Class p => if p c then Eps else Empty
  | Cat r s =>
      if nullable r then Alt (Cat (deriv c r) s) (deriv c s)
      else Cat (deriv c r) s
  | Alt r s => Alt (deriv c r) (deriv c s)
  | Star r => Cat (deriv c r) (Star r)
  end.

(** [/^r$/.test(s)]: the pattern, anchored at both ends and without
    flags, against the whole string. *)
Definition RegExp_test (r : regex) (s : jsstring) : bool :=
  nullable (fold_left (fun r c => deriv c r) s r).

(** The class [[^\s@]]. *)
Definition notSpaceNorAt (c : N) : bool :=
  negb (isWhiteSpace c || (c =? 64)%N).

(** [/^[^\s@]+@[^\s@]+\.[^\s@]+$/]. *)
Definition emailPattern : regex :=
  Cat (Plus (Class notSpaceNorAt))
    (Cat (Class (N.eqb 64))
       (Cat (Plus (Class notSpaceNorAt))
          (Cat (Class (N.eqb 46)) (Plus (Class notSpaceNorAt))))).

(** The [errors] object: a message per field, absent when the field is
    fine. *)
Record LoginErrors : Type := mkLoginErrors {
  email_error : option jsstring;
  password_error : option jsstring
}.

(** [validateForm]: the errors it sets, and what it returns. *)
Definition validateForm (email password : jsstring) : LoginErrors * bool :=
  let email_error :=
    if negb (truthy email) then Some (lit "Email is required")
    else if negb (RegExp_test emailPattern email)
         then Some (lit "Please enter a valid email")
         else None in
  let password_error :=
    if negb (truthy password) then Some (lit "Password is required")
    else if (length password <? 6)%nat
         then Some (lit "Password must be at least 6 characters")
         else None in
  let newErrors := mkLoginErrors email_error password_error in
  (newErrors,
   match email_error, password_error with
   | None, None => true
   | _, _ => false
   end).

(** ** Token storage and the request interceptors

    [utils/auth.ts] and the two interceptors of [utils/request.ts].
    [localStorage] is a finite map from strings to strings.  The numbers
    stored are a clock reading in milliseconds and a lifetime in
    seconds, here integers; [Number] of a stored string is the integer
    it denotes, or [None] for NaN. *)

Abbreviation Storage := (gmap (list N) (list N)).

Definition TOKEN_KEY : jsstring := lit "admin_access_token".
Definition EXPIRES_IN_KEY : jsstring := lit "token_expires_in".
Definition CREATE_TIME_KEY : jsstring := lit "token_create_time".

(** [!v] for what [getItem] returns: [null] and the empty string. *)
Definition falsy (v : option jsstring) : bool :=
  match v with
  | None => true
  | Some s => negb (truthy s)
  end.

Section Auth.

(** [Number.prototype.toString] on an integer, and [Number] on a string. *)
Variable toString : Z -> jsstring.
Variable Number : jsstring -> option Z.

(** [setToken(token, expiresIn)] when the clock reads [now]. *)
Definition setToken (now : Z) (token : jsstring) (expiresIn : Z)
  (localStorage : Storage) : Storage :=
  <[CREATE_TIME_KEY := toString now]>
    (<[EXPIRES_IN_KEY := toString expiresIn]>
       (<[TOKEN_KEY := token]> localStorage)).

Definition getToken (localStorage : Storage) : option jsstring :=
  localStorage !! TOKEN_KEY.

Definition removeToken (localStorage : Storage) : Storage :=
  delete CREATE_TIME_KEY (delete EXPIRES_IN_KEY (delete TOKEN_KEY localStorage)).

(** [isTokenValid()] when the clock reads [now].  [Math.floor] of the
    quotient of two integers is their floored division; a comparison
    with NaN is false. *)
Definition isTokenValid (now : Z) (localStorage : Storage) : bool :=
  let token := getToken localStorage in
  let createTime := localStorage !! CREATE_TIME_KEY in
  let expiresIn := localStorage !! EXPIRES_IN_KEY in
  if falsy token || falsy createTime || falsy expiresIn then false
  else
    match createTime ≫= Number, expiresIn ≫= Number with
    | Some created, Some lifetime =>
        let aliveTime := (now - created) / 1000 in
        aliveTime <? lifetime - 60
    | _, _ => false
    end.

End Auth.

(** A request configuration: its headers, which may be absent, and the
    rest, which the interceptor passes on. *)
Record RequestConfig : Type := mkConfig {
  url : jsstring;
  headers : option (gmap (list N) (list N))
}.

(** The request interceptor: [Authorization: Bearer <token>] when there
    is a token and the configuration has headers. *)
Definition onRequest (localStorage : Storage) (config : RequestConfig)
  : RequestConfig :=
  match getToken localStorage, headers config with
  | Some token, Some h =>
      if truthy token
      then mkConfig (url config)
             (Some (<[lit "Authorization" := lit "Bearer " ++ token]> h))
      else config
  | _, _ => config
  end.

(** What the response error interceptor can write. *)
Record Browser : Type := mkBrowser {
  localStorage : Storage;
  href : jsstring;
  alerts : list jsstring
}.

(** The message of the [alert] on an expired login. *)
Definition loginExpired : jsstring :=
  [30331; 24405; 24050; 36807; 26399; 65292; 35831; 37325; 26032; 30331;
   24405]%N.

(** The response error interceptor, on an error whose
    [response?.status] is [status]; the error itself is rejected again
    in every case. *)
Definition onResponseError (status : option Z) (b : Browser) : Browser :=
  match status with
  | Some 401 =>
      mkBrowser (removeToken (localStorage b)) (lit "/login")
        (alerts b ++ [loginExpired])
  | _ => b
  end.

(** ** Choosing a file to upload, and the download request

    [handleFileUpload] and the query of [handleDownload], of the version
    of the dashboard that uploads and downloads spreadsheets. *)

Module File.

(** What the handler reads of a [File]. *)
Record t : Type := mk {
  name : jsstring;
  type : jsstring;
  size : Z
}.

End File.

(** [String.prototype.split] with a separator of one code unit. *)
Fixpoint String_split (sep : N) (s : jsstring) : list jsstring :=
  match s with
  | [] => [[]]
  | c :: s' =>
      if (c =? sep)%N then [] :: String_split sep s'
      else match String_split sep s' with
           | [] => [[c]]
           | w :: ws => (c :: w) :: ws
           end
  end.

(** The value of [Array.prototype.pop]: the last element, [undefined]
    (here [None]) on an empty array. *)
Definition Array_pop {A : Type} (l : list A) : option A := last l.

(** [Array.prototype.includes] on strings. *)
Definition Array_includes (l : list jsstring) (x : jsstring) : bool :=
  existsb (String_eqb x) l.

Definition allowedTypes : list jsstring :=
  [lit "application/vnd.openxmlformats-officedocument.spreadsheetml.sheet";
   lit "application/vnd.ms-excel";
   lit "text/csv"].

Definition allowedExtensions : list jsstring :=
  [lit "xlsx"; lit "xls"; lit "csv"].

(** [10 * 1024 * 1024]. *)
Definition maxSize : Z := 10 * 1024 * 1024.

(** The two error messages and the alert of [handleFileUpload]. *)
Definition wrongFileType : jsstring :=
  [35831; 36873; 25321; 27491; 30830; 30340; 25991; 20214; 31867; 22411;
   65288; 20165; 25903; 25345; 32; 46; 120; 108; 115; 120; 12289; 46; 120;
   108; 115; 12289; 46; 99; 115; 118; 65289]%N.

Definition fileTooLarge : jsstring :=
  [25991; 20214; 22823; 23567; 19981; 33021; 36229; 36807; 32; 49; 48; 77;
   66]%N.

Definition fileChosen : jsstring :=
  [25991; 20214; 36873; 25321; 25104; 21151]%N.

(** The cells [handleFileUpload] writes, and the alerts raised. *)
Record FileChoice : Type := mkFileChoice {
  selectedFile : option File.t;
  fileError : jsstring;
  fileAlerts : list jsstring
}.

Section Upload.

Variable toLowerCase : jsstring -> jsstring.

(** The extension the handler looks at:
    [file.name.split(".").pop()?.toLowerCase()]. *)
Definition fileExtension (file : File.t) : option jsstring :=
  option_map toLowerCase (Array_pop (String_split 46 (File.name file))).

Definition isTypeValid (file : File.t) : bool :=
  Array_includes allowedTypes (File.type file)
  || Array_includes allowedExtensions (default [] (fileExtension file)).

(** [handleFileUpload], on the first file of the input ([None] when the
    input holds no file). *)
Definition handleFileUpload (file : option File.t) (st : FileChoice)
  : FileChoice :=
  match file with
  | None => mkFileChoice None [] (fileAlerts st)
  | Some file =>
      if negb (isTypeValid file)
      then mkFileChoice None wrongFileType (fileAlerts st)
      else if File.size file >? maxSize
           then mkFileChoice None fileTooLarge (fileAlerts st)
           else mkFileChoice (Some file) [] (fileAlerts st ++ [fileChosen])
  end.

End Upload.



(** ** Runtime instances for running examples *)

Module Sample.

(** [toLowerCase] on ASCII text. *)
Definition toLowerCase (s : jsstring) : jsstring :=
  map (fun c => if ((65 <=? c) && (c <=? 90))%N then (c + 32)%N else c) s.

Fixpoint digits (s : jsstring) (acc : Z) : option Z :=
  match s with
  | [] => Some acc
  | c :: s' =>
      match digit c with
      | Some d => digits s' (10 * acc + d)
      | None => None
      end
  end.

(** [parseFloat] on a string of decimal digits (a value below 2^53);
    NaN on any other string, which covers only part of the runtime's
    function. *)
Definition parseFloat (s : jsstring) : float :=
  match s with
  | [] => nan
  | _ :: _ =>
      match digits s 0 with
      | Some n => of_uint63 (Uint63.of_Z n)
      | None => nan
      end
  end.

(** An implementation that accepts the date-time string format only. *)
Definition legacyParse (s : jsstring) : timevalue := None.

(** UTC+8 and UTC-5, in milliseconds. *)
Definition tzShanghai : Z := 28800000.
Definition tzNewYork : Z := -18000000.

Definition record (number company product time : string) (amount : value)
  : InvoiceData :=
  mkInvoice (lit number) (lit company) (lit "Buyer") (lit time) (lit product)
    None 1%float amount.

Definition noFilters (data : list InvoiceData) (page : Z) : State :=
  mkState data [] [] [] [] [] (mkDateRange [] []) (mkPriceRange [] []) page.

(** The date range 2024-01-01 to 2024-01-31, nothing else set. *)
Definition january2024 : State :=
  applyChange
    (setDateRange (mkDateRange (lit "2024-01-01") (lit "2024-01-31")))
    (noFilters [] 1).

(** 25 records: three pages. *)
Definition twentyFiveRecords : list InvoiceData :=
  map (fun _ => record "A-1" "Acme" "Bolt" "2024-01-05" (Num 100))
      (seq 0 25).

End Sample.

(** Decimal instances of [toString] and [Number] for running the token
    examples: the decimal numeral of an integer, and the integer a
    decimal numeral denotes (NaN on every other string, which covers
    only part of the runtime's [Number]). *)
Module SampleNumber.

Definition toString (z : Z) : jsstring :=
  lit (NilZero.string_of_int (Z.to_int z)).

Definition Number (s : jsstring) : option Z :=
  if forallb (fun c => (c <? 256)%N) s
  then option_map Z.of_int
         (NilZero.int_of_string (string_of_list_ascii (map ascii_of_N s)))
  else None.

End SampleNumber.

(** ** Properties of the runtime *)

Section FloatFacts.

Local Open Scope float_scope.

Lemma SFcompare_antisym (x y : spec_float) :
  SFcompare y x = option_map CompOpp (SFcompare x y).
Proof.
  destruct x as [sx| sx | | sx mx ex], y as [sy | sy | | sy my ey]; simpl;
    try reflexivity; try (destruct sx; reflexivity);
    try (destruct sy; reflexivity); try (destruct sx, sy; reflexivity).
  pose proof (Pos.compare_antisym mx my) as Hm. unfold Pos.compare in Hm.
  destruct sx, sy; try reflexivity;
    rewrite (Z.compare_antisym ex ey); destruct (ex ?= ey)%Z; simpl;
    try reflexivity; rewrite Hm;
    destruct (Pos.compare_cont Eq mx my); reflexivity.
Qed.

Lemma is_nan_spec (x : float) :
  is_nan x = match Prim2SF x with S754_nan => true | _ => false end.
Proof.
  unfold is_nan. rewrite FloatAxioms.eqb_spec. unfold SFeqb.
  destruct (Prim2SF x) as [s|s| |s m e]; simpl; try reflexivity;
    try (destruct s; reflexivity).
  destruct s; rewrite Z.compare_refl; fold (Pos.compare m m);
    rewrite Pos.compare_refl; reflexivity.
Qed.



Lemma SFcompare_some (x y : spec_float) :
  x <> S754_nan -> y <> S754_nan -> exists c, SFcompare x y = Some c.
Proof. destruct x, y; simpl; try congruence; eauto. Qed.

Lemma negb_ltb (x y : float) :
  is_nan x = false -> is_nan y = false -> negb (x <? y) = (y <=? x).
Proof.
  rewrite !is_nan_spec, FloatAxioms.ltb_spec, FloatAxioms.leb_spec.
  unfold SFltb, SFleb.
  rewrite (SFcompare_antisym (Prim2SF x) (Prim2SF y)). intros Hx Hy.
  destruct (SFcompare_some (Prim2SF x) (Prim2SF y)) as [c Hc].
  - destruct (Prim2SF x); congruence.
  - destruct (Prim2SF y); congruence.
  - rewrite Hc. destruct c; reflexivity.
Qed.

End FloatFacts.

(** ** Properties of the filter *)

Section FilterFacts.

Variable toLowerCase : jsstring -> jsstring.
Variable parseFloat : jsstring -> float.
Variable LocalTZA : Z.
Variable legacyParse : jsstring -> timevalue.

Abbreviation callback := (filterCallback toLowerCase parseFloat LocalTZA legacyParse).
Abbreviation filtered := (view toLowerCase parseFloat LocalTZA legacyParse).
Abbreviation page' := (pageAfter toLowerCase parseFloat LocalTZA legacyParse).
Abbreviation passes := (passesAll toLowerCase parseFloat LocalTZA legacyParse).

Lemma filterCallback_run (st : State) (item : InvoiceData) (page : Z) :
  callback st item page
  = (passes st item, if passes st item then 1 else page).
Proof.
  unfold filterCallback, passesAll.
  destruct (keywordRejects _ _ _); [reflexivity|].
  destruct (productRejects _ _); [reflexivity|].
  destruct (billingCompanyRejects _ _); [reflexivity|].
  destruct (invoiceCompanyRejects _ _); [reflexivity|].
  destruct (dateRejects _ _ _ _); [reflexivity|].
  destruct (priceRejects _ _ _); reflexivity.
Qed.

Lemma Array_filter_run {A : Type} (f : A -> Render bool) (g : A -> bool) :
  (forall x page, f x page = (g x, if g x then 1 else page)) ->
  forall l page,
    Array_filter f l page
    = (List.filter g l, if existsb g l then 1 else page).
Proof.
  intros Hf. induction l as [|x l IH]; intros page; [reflexivity|].
  cbn [Array_filter List.filter existsb]. unfold bind at 1.
  rewrite Hf. unfold bind at 1. rewrite IH. unfold ret.
  destruct (g x); cbn [orb]; [|reflexivity].
  destruct (existsb g l); reflexivity.
Qed.

Lemma view_filter (st : State) :
  filtered st = List.filter (passes st) (invoiceData st).
Proof.
  unfold view, filteredData.
  rewrite (Array_filter_run _ (passes st)); [reflexivity|].
  intros; apply filterCallback_run.
Qed.

Lemma pageAfter_run (st : State) :
  page' st
  = if existsb (passes st) (invoiceData st) then 1 else currentPage st.
Proof.
  unfold pageAfter, filteredData.
  rewrite (Array_filter_run _ (passes st)); [reflexivity|].
  intros; apply filterCallback_run.
Qed.

Lemma filter_nil_existsb {A : Type} (g : A -> bool) (l : list A) :
  List.filter g l = [] <-> existsb g l = false.
Proof.
  induction l as [|x l IH]; cbn; [tauto|].
  destruct (g x); cbn; [split; discriminate | exact IH].
Qed.

(** The page is reset as soon as one record passes. *)
Lemma pageAfter_nonempty (st : State) :
  filtered st <> [] -> page' st = 1.
Proof.
  rewrite view_filter, pageAfter_run, filter_nil_existsb.
  destruct (existsb (passes st) (invoiceData st)); congruence.
Qed.

(** When none passes, [setCurrentPage] is never reached. *)
Lemma pageAfter_empty (st : State) :
  filtered st = [] -> page' st = currentPage st.
Proof.
  rewrite view_filter, pageAfter_run, filter_nil_existsb.
  intros ->. reflexivity.
Qed.

(** Computing the view keeps the page at 1 or above. *)
Lemma pageAfter_ge_1 (st : State) : 1 <= currentPage st -> 1 <= page' st.
Proof.
  rewrite pageAfter_run.
  destruct (existsb (passes st) (invoiceData st)); lia.
Qed.

Lemma filter_sublist {A : Type} (g : A -> bool) (l : list A) :
  List.filter g l `sublist_of` l.
Proof.
  induction l as [|x l IH]; cbn; [constructor|].
  destruct (g x); [apply sublist_skip | apply sublist_cons]; exact IH.
Qed.

Lemma filter_all {A : Type} (g : A -> bool) (l : list A) :
  (forall x, g x = true) -> List.filter g l = l.
Proof.
  intros Hg. induction l as [|x l IH]; cbn; [reflexivity|].
  rewrite Hg, IH. reflexivity.
Qed.

(** C8: the filtered view is a subsequence of the record list (its
    records are records of the list, in the order of the list), and with
    every slot of the predicate set empty it is the whole list. *)
Theorem filter_stable_subsequence (st : State) :
  filtered st `sublist_of` invoiceData st
  /\ (forall r, r ∈ filtered st -> r ∈ invoiceData st)
  /\ (searchKeyword st = [] -> selectedProduct st = [] ->
      selectedBillingCompany st = [] -> selectedInvoiceCompany st = [] ->
      dateRange st = mkDateRange [] [] -> priceRange st = mkPriceRange [] [] ->
      filtered st = invoiceData st).
Proof.
  rewrite view_filter. split; [apply filter_sublist|]. split.
  - intros r Hr. eapply elem_of_sublist; [exact Hr | apply filter_sublist].
  - intros Hk Hp Hb Hi Hd Hr. apply filter_all. intros x.
    unfold passesAll, keywordRejects, productRejects, billingCompanyRejects,
      invoiceCompanyRejects, dateRejects, priceRejects.
    rewrite Hk, Hp, Hb, Hi, Hd, Hr. reflexivity.
Qed.

End FilterFacts.

(** Witness of C8: two records, no predicate set. *)
Lemma filter_stable_subsequence_witness :
  let data := [Sample.record "A-1" "Acme" "Bolt" "2024-01-05" (Num 100);
               Sample.record "A-2" "Zeta" "Nut" "2024-01-06" (Num 200)] in
  view Sample.toLowerCase Sample.parseFloat Sample.tzShanghai Sample.legacyParse
    (Sample.noFilters data 1) = data.
Proof.
  intros data.
  apply (filter_stable_subsequence Sample.toLowerCase Sample.parseFloat
           Sample.tzShanghai Sample.legacyParse (Sample.noFilters data 1));
    reflexivity.
Defined.

(** ** The amount range *)

Section AmountFacts.

Variable parseFloat : jsstring -> float.

Local Open Scope float_scope.




End AmountFacts.



(** ** The date range *)

Section DateFacts.

Variable toLowerCase : jsstring -> jsstring.
Variable parseFloat : jsstring -> float.
Variable LocalTZA : Z.
Variable legacyParse : jsstring -> timevalue.

Abbreviation Date_new := (JS.Date_new LocalTZA legacyParse).
Abbreviation setHours := (JS.setHours LocalTZA).
Abbreviation rejects := (dateRejects LocalTZA legacyParse).

Lemma Date_lt_invalid_l (d : timevalue) : Date_lt None d = false.
Proof. reflexivity. Qed.

Lemma Date_gt_invalid_l (d : timevalue) : Date_gt None d = false.
Proof. destruct d; reflexivity. Qed.

(** For a record whose timestamp parses, the date block lets it through
    exactly when it is not before the start date and not after the end
    date moved to 23:59:59.999; a bound that is unset or does not parse
    excludes nothing. *)
Lemma dateRejects_valid (st : State) (item : InvoiceData) (t : Z) :
  Date_new (时间 item) = Some t ->
  rejects st item = false <->
  (forall s, start (dateRange st) <> [] ->
             Date_new (start (dateRange st)) = Some s -> s <= t)
  /\ (forall e, end_ (dateRange st) <> [] ->
                setHours (Date_new (end_ (dateRange st))) 23 59 59 999 = Some e ->
                t <= e).
Proof.
  intros Ht. unfold dateRejects. rewrite Ht.
  destruct (start (dateRange st)) as [|c s'] eqn:Es;
    destruct (end_ (dateRange st)) as [|c' e'] eqn:Ee; cbn [truthy orb andb].
  - split; [|reflexivity]. intros _. split; intros ? H; contradiction.
  - unfold Date_gt, Date_lt.
    destruct (setHours (Date_new (c' :: e')) 23 59 59 999) as [e|].
    + destruct (e <? t) eqn:E.
      * split; [discriminate|]. intros [_ H].
        specialize (H e ltac:(discriminate) eq_refl). lia.
      * split; [|reflexivity]. intros _.
        split; [intros ? H; contradiction|]. intros e0 _ [= <-]. lia.
    + split; [|reflexivity]. intros _.
      split; [intros ? H; contradiction | discriminate].
  - unfold Date_lt.
    destruct (Date_new (c :: s')) as [s|].
    + destruct (t <? s) eqn:E.
      * split; [discriminate|]. intros [H _].
        specialize (H s ltac:(discriminate) eq_refl). lia.
      * split; [|reflexivity]. intros _.
        split; [|intros ? H; contradiction]. intros s0 _ [= <-]. lia.
    + split; [|reflexivity]. intros _.
      split; [discriminate | intros ? H; contradiction].
  - unfold Date_gt, Date_lt.
    destruct (Date_new (c :: s')) as [s|];
      destruct (setHours (Date_new (c' :: e')) 23 59 59 999) as [e|];
      try destruct (t <? s) eqn:E1; try destruct (e <? t) eqn:E2;
      cbn [andb]; split; try discriminate; try reflexivity;
      try (intros _; split; [intros s0 _ [= <-] | intros e0 _ [= <-]]; lia);
      try (intros _; split; [intros s0 _ [= <-] | discriminate]; lia);
      try (intros _; split; [discriminate | intros e0 _ [= <-]]; lia);
      try (intros _; split; discriminate);
      try (intros [H1 H2];
           try specialize (H1 s ltac:(discriminate) eq_refl);
           try specialize (H2 e ltac:(discriminate) eq_refl); lia).
Qed.

(** C10: a record whose timestamp does not parse to a valid date is not
    rejected by the date block, whichever bounds are set (the block is a
    total function: nothing in it raises); so it is in the filtered view
    whenever the other blocks let it through. *)
Theorem invalid_timestamp_is_retained (st : State) (item : InvoiceData) :
  Date_new (时间 item) = None ->
  rejects st item = false
  /\ (item ∈ invoiceData st ->
      keywordRejects toLowerCase st item = false ->
      productRejects st item = false ->
      billingCompanyRejects st item = false ->
      invoiceCompanyRejects st item = false ->
      priceRejects parseFloat st item = false ->
      item ∈ view toLowerCase parseFloat LocalTZA legacyParse st).
Proof.
  intros Hinv.
  assert (Hd : rejects st item = false).
  { unfold dateRejects. rewrite Hinv, Date_lt_invalid_l, Date_gt_invalid_l.
    rewrite !andb_false_r.
    destruct (truthy (start (dateRange st)) || truthy (end_ (dateRange st)));
      reflexivity. }
  split; [exact Hd|]. intros Hin Hk Hp Hb Hi Hr.
  rewrite view_filter. apply list_elem_of_In, filter_In.
  split; [apply list_elem_of_In; exact Hin|].
  unfold passesAll. rewrite Hk, Hp, Hb, Hi, Hd, Hr. reflexivity.
Qed.

End DateFacts.

(** Witness of C10: a timestamp that is no date, both bounds set. *)
Lemma invalid_timestamp_is_retained_witness :
  dateRejects Sample.tzShanghai Sample.legacyParse
    (applyChange
       (setDateRange (mkDateRange (lit "2024-01-01") (lit "2024-01-31")))
       (Sample.noFilters [] 1))
    (Sample.record "A-1" "Acme" "Bolt" "n/a" (Num 100)) = false.
Proof.
  apply (invalid_timestamp_is_retained Sample.toLowerCase Sample.parseFloat
           Sample.tzShanghai Sample.legacyParse).
  reflexivity.
Defined.

(** *** The end date and the time zone

    The bounds come from [<input type="date">], so they are date-only
    strings, which parse as UTC midnight, while [setHours] sets the time
    of day in local time. *)

Section ZoneFacts.

Variable LocalTZA : Z.
Variable legacyParse : jsstring -> timevalue.

Lemma TimeClip_in_range (v : Z) :
  Z.abs v <= 8640000000000000 -> TimeClip (Some v) = Some v.
Proof.
  intros Hv. unfold TimeClip.
  destruct (Z.abs v >? 8640000000000000) eqn:E; [lia | reflexivity].
Qed.

Lemma parseISO_date_only (s : jsstring) (day : Z) :
  isoDate s = Some (day, []) ->
  parseISO LocalTZA s = Some (MakeDate day 0).
Proof. unfold parseISO. intros ->. reflexivity. Qed.

Lemma parseISO_local_time (s r : jsstring) (day time : Z) :
  isoDate s = Some (day, 84%N :: r) ->
  isoTime r = Some (time, None) ->
  parseISO LocalTZA s = Some (UTC LocalTZA (MakeDate day time)).
Proof. unfold parseISO. intros -> Ht. cbn. rewrite Ht. reflexivity. Qed.

Lemma Date_new_ISO (s : jsstring) (t : Z) :
  parseISO LocalTZA s = Some t ->
  Z.abs t <= 8640000000000000 ->
  Date_new LocalTZA legacyParse s = Some t.
Proof.
  intros Hp Ht. unfold Date_new, Date_parse. rewrite Hp.
  apply TimeClip_in_range, Ht.
Qed.

(** At or east of UTC, UTC midnight of a date falls on that date in
    local time, and [setHours] moves it to the end of that local day. *)
Lemma setHours_end_of_day_east (day : Z) :
  0 <= LocalTZA < msPerDay ->
  setHours LocalTZA (Some (MakeDate day 0)) 23 59 59 999
  = TimeClip (Some (MakeDate day (MakeTime 23 59 59 999) - LocalTZA)).
Proof.
  intros Hz. unfold setHours, UTC, LocalTime, Day, MakeDate.
  replace ((day * msPerDay + 0 + LocalTZA) / msPerDay) with day;
    [reflexivity|].
  apply (Z.div_unique _ _ _ LocalTZA); unfold msPerDay in *; lia.
Qed.

(** West of UTC, UTC midnight of a date falls on the day before in
    local time, and [setHours] moves it to the end of that earlier day. *)
Lemma setHours_end_of_day_west (day : Z) :
  - msPerDay <= LocalTZA < 0 ->
  setHours LocalTZA (Some (MakeDate day 0)) 23 59 59 999
  = TimeClip (Some (MakeDate (day - 1) (MakeTime 23 59 59 999) - LocalTZA)).
Proof.
  intros Hz. unfold setHours, UTC, LocalTime, Day, MakeDate.
  replace ((day * msPerDay + 0 + LocalTZA) / msPerDay) with (day - 1);
    [reflexivity|].
  apply (Z.div_unique _ _ _ (LocalTZA + msPerDay));
    unfold msPerDay in *; lia.
Qed.

(** The dates of the example, in a zone within a day of UTC. *)
Lemma january2024_dates :
  - msPerDay <= LocalTZA <= msPerDay ->
  Date_new LocalTZA legacyParse (lit "2024-01-01") = Some (MakeDate 19723 0)
  /\ Date_new LocalTZA legacyParse (lit "2024-01-31") = Some (MakeDate 19753 0)
  /\ Date_new LocalTZA legacyParse (lit "2024-01-31T23:00")
     = Some (UTC LocalTZA (MakeDate 19753 (MakeTime 23 0 0 0)))
  /\ Date_new LocalTZA legacyParse (lit "2024-02-01T00:00")
     = Some (UTC LocalTZA (MakeDate 19754 (MakeTime 0 0 0 0))).
Proof.
  intros Hz. unfold msPerDay in Hz. split; [|split; [|split]].
  - apply Date_new_ISO; [apply parseISO_date_only; reflexivity|].
    unfold MakeDate, msPerDay; lia.
  - apply Date_new_ISO; [apply parseISO_date_only; reflexivity|].
    unfold MakeDate, msPerDay; lia.
  - apply Date_new_ISO;
      [apply (parseISO_local_time _ (lit "23:00")); reflexivity|].
    unfold UTC, MakeDate, MakeTime, msPerDay. lia.
  - apply Date_new_ISO;
      [apply (parseISO_local_time _ (lit "00:00")); reflexivity|].
    unfold UTC, MakeDate, MakeTime, msPerDay. lia.
Qed.

(** Unfolds the date block on the example and decides the comparisons. *)
Ltac january2024_block Hz end_of_day :=
  destruct january2024_dates as (Hs & He & Ha & Hb);
    [unfold msPerDay in *; lia|];
  unfold dateRejects, Sample.january2024;
  cbn [applyChange dateRange start end_ 时间 Sample.record Sample.noFilters];
  rewrite ?Hs, ?He, ?Ha, ?Hb, end_of_day by exact Hz;
  rewrite TimeClip_in_range
    by (unfold UTC, MakeDate, MakeTime, msPerDay in *; lia);
  change (truthy (lit "2024-01-01")) with true;
  change (truthy (lit "2024-01-31")) with true;
  unfold Date_gt, Date_lt, UTC, MakeDate, MakeTime, msPerDay in *;
  repeat match goal with
         | |- context [?a <? ?b] => destruct (Z.ltb_spec a b); try lia
         end;
  reflexivity.

(** At or east of UTC the range 2024-01-01 to 2024-01-31 keeps a record
    of 2024-01-31T23:00 and drops one of 2024-02-01T00:00. *)
Lemma january2024_east :
  0 <= LocalTZA < msPerDay ->
  dateRejects LocalTZA legacyParse Sample.january2024
    (Sample.record "A-1" "Acme" "Bolt" "2024-01-31T23:00" (Num 100)) = false
  /\ dateRejects LocalTZA legacyParse Sample.january2024
       (Sample.record "A-2" "Acme" "Bolt" "2024-02-01T00:00" (Num 100)) = true.
Proof.
  intros Hz. split; january2024_block Hz setHours_end_of_day_east.
Qed.

(** West of UTC the same range drops the record of 2024-01-31T23:00. *)
Lemma january2024_west :
  - msPerDay <= LocalTZA < 0 ->
  dateRejects LocalTZA legacyParse Sample.january2024
    (Sample.record "A-1" "Acme" "Bolt" "2024-01-31T23:00" (Num 100)) = true.
Proof.
  intros Hz. january2024_block Hz setHours_end_of_day_west.
Qed.

End ZoneFacts.

(** C7: with start 2024-01-01 and end 2024-01-31, west of UTC (here
    UTC-5) the date block rejects the record of 2024-01-31T23:00: the end
    bound it compares with is 2024-01-30T23:59:59.999 local time.  At
    UTC+8 the same record is kept and the record of 2024-02-01T00:00 is
    rejected. *)
Theorem end_date_west_of_UTC :
  dateRejects Sample.tzNewYork Sample.legacyParse Sample.january2024
    (Sample.record "A-1" "Acme" "Bolt" "2024-01-31T23:00" (Num 100)) = true
  /\ setHours Sample.tzNewYork
       (Date_new Sample.tzNewYork Sample.legacyParse (lit "2024-01-31"))
       23 59 59 999
     = Date_new Sample.tzNewYork Sample.legacyParse
         (lit "2024-01-30T23:59:59.999")
  /\ dateRejects Sample.tzShanghai Sample.legacyParse Sample.january2024
       (Sample.record "A-1" "Acme" "Bolt" "2024-01-31T23:00" (Num 100)) = false
  /\ dateRejects Sample.tzShanghai Sample.legacyParse Sample.january2024
       (Sample.record "A-2" "Acme" "Bolt" "2024-02-01T00:00" (Num 100)) = true.
Proof. repeat split. Qed.

(** ** The page reset *)

(** C2: on page 3 of 25 records, a keyword that matches no record leaves
    the filtered view empty and the current page at 3: the callback
    returns before [setCurrentPage(1)] for every record.  A keyword that
    matches brings the page back to 1. *)
Theorem page_kept_when_view_empty :
  let st := Sample.noFilters Sample.twentyFiveRecords 3 in
  view Sample.toLowerCase Sample.parseFloat Sample.tzShanghai
    Sample.legacyParse (applyChange (setSearchKeyword (lit "zzz")) st) = []
  /\ pageAfter Sample.toLowerCase Sample.parseFloat Sample.tzShanghai
       Sample.legacyParse (applyChange (setSearchKeyword (lit "zzz")) st) = 3
  /\ pageAfter Sample.toLowerCase Sample.parseFloat Sample.tzShanghai
       Sample.legacyParse (applyChange (setSearchKeyword (lit "ACME")) st) = 1.
Proof. repeat split. Qed.

(** ** The statistics *)

Section StatsFacts.

Local Open Scope float_scope.

(** C3: on an empty view, or a view none of whose amounts is valid (not
    null, not undefined, not NaN), [stats] is all zeros, the count
    included. *)
Theorem stats_degenerate (filtered : list InvoiceData) :
  filtered = [] \/ amounts filtered = [] ->
  stats filtered
  = {| totalInvoices := 0; totalAmount := 0; averageAmount := 0;
       maxAmount := 0; minAmount := 0; companyCount := 0; productCount := 0 |}.
Proof.
  intros [-> | Ha]; [reflexivity|].
  unfold stats. rewrite Ha.
  destruct (length filtered =? 0)%nat; reflexivity.
Qed.

(** C4: four records with amounts 100, 200, NaN and 300: the total is
    600, the average 200 (600 over the 3 valid amounts), the maximum 300,
    the minimum 100, and the count 4. *)
Theorem stats_skips_NaN (r1 r2 r3 r4 : InvoiceData) :
  含税总价 r1 = Num 100 -> 含税总价 r2 = Num 200 ->
  含税总价 r3 = Num nan -> 含税总价 r4 = Num 300 ->
  totalAmount (stats [r1; r2; r3; r4]) = 600
  /\ averageAmount (stats [r1; r2; r3; r4]) = 200
  /\ maxAmount (stats [r1; r2; r3; r4]) = 300
  /\ minAmount (stats [r1; r2; r3; r4]) = 100
  /\ totalInvoices (stats [r1; r2; r3; r4]) = 4%nat
  /\ length (amounts [r1; r2; r3; r4]) = 3%nat.
Proof.
  intros H1 H2 H3 H4.
  assert (Ha : amounts [r1; r2; r3; r4] = [Num 100; Num 200; Num 300])
    by (unfold amounts; cbn [map]; rewrite H1, H2, H3, H4; reflexivity).
  unfold stats. rewrite Ha.
  cbn [length Nat.eqb totalAmount averageAmount maxAmount minAmount
       totalInvoices].
  repeat split.
Qed.

End StatsFacts.

(** Witness of C3: one record, its amount NaN. *)
Lemma stats_degenerate_witness :
  totalInvoices
    (stats [Sample.record "A-1" "Acme" "Bolt" "2024-01-05" (Num nan)]) = 0%nat.
Proof.
  rewrite (stats_degenerate
             [Sample.record "A-1" "Acme" "Bolt" "2024-01-05" (Num nan)]);
    [reflexivity | right; reflexivity].
Defined.

(** Witness of C4. *)
Lemma stats_skips_NaN_witness :
  averageAmount
    (stats [Sample.record "A-1" "Acme" "Bolt" "2024-01-05" (Num 100);
            Sample.record "A-2" "Acme" "Nut" "2024-01-06" (Num 200);
            Sample.record "A-3" "Zeta" "Nut" "2024-01-07" (Num nan);
            Sample.record "A-4" "Zeta" "Bolt" "2024-01-08" (Num 300)])
  = 200%float.
Proof.
  apply (stats_skips_NaN
           (Sample.record "A-1" "Acme" "Bolt" "2024-01-05" (Num 100))
           (Sample.record "A-2" "Acme" "Nut" "2024-01-06" (Num 200))
           (Sample.record "A-3" "Zeta" "Nut" "2024-01-07" (Num nan))
           (Sample.record "A-4" "Zeta" "Bolt" "2024-01-08" (Num 300)));
    reflexivity.
Defined.

(** ** Pagination *)

Section PagingFacts.

Lemma totalPages_ceil (filtered : list InvoiceData) :
  pageSize * (totalPages filtered - 1) < Z.of_nat (length filtered)
  <= pageSize * totalPages filtered.
Proof.
  unfold totalPages, Math_ceil_div, pageSize.
  pose proof (Z.div_mod (- Z.of_nat (length filtered)) 10 ltac:(lia)).
  pose proof (Z.mod_pos_bound (- Z.of_nat (length filtered)) 10 ltac:(lia)).
  lia.
Qed.

Lemma currentData_lookup (filtered : list InvoiceData) (page : Z) (i : nat) :
  1 <= page ->
  currentData filtered page !! i
  = if (i <? 10)%nat
    then filtered !! (Z.to_nat ((page - 1) * pageSize) + i)%nat
    else None.
Proof.
  intros Hp. unfold currentData, Array_slice, relativeIndex, pageSize.
  destruct ((page - 1) * 10 <? 0) eqn:E1; [lia|].
  destruct (page * 10 <? 0) eqn:E2; [lia|].
  set (len := Z.of_nat (length filtered)).
  set (k := Z.min ((page - 1) * 10) len).
  set (final := Z.min (page * 10) len).
  destruct (Nat.ltb_spec i 10) as [Hi | Hi].
  - destruct (decide (i < Z.to_nat (final - k))%nat) as [Hc | Hc].
    + rewrite lookup_take_lt, lookup_drop by exact Hc.
      f_equal. subst k final len. lia.
    + rewrite lookup_take_ge by lia.
      symmetry. apply lookup_ge_None_2. subst k final len. lia.
  - apply lookup_take_ge. subst k final len. lia.
Qed.

(** Navigation keeps the page at 1 or above, which is where
    [currentData] is read. *)
Lemma handlePageChange_ge_1 (filtered : list InvoiceData) (n cur : Z) :
  1 <= cur -> 1 <= snd (handlePageChange filtered n cur).
Proof.
  unfold handlePageChange, ret, setCurrentPage. intros Hc.
  destruct (n <? 1) eqn:E; cbn [orb fst snd]; [exact Hc|].
  destruct (n >? totalPages filtered); cbn [snd]; lia.
Qed.

(** C5: the page size is 10; the number of pages is the ceiling of the
    filtered count over 10, 0 for an empty view; page [page] (from 1)
    holds the records at indices (page-1)*10 to page*10 (excluded) of
    the view, as far as they exist; 25 records make 3 pages, the third
    of 5 records. *)
Theorem pagination (filtered : list InvoiceData) :
  pageSize = 10
  /\ pageSize * (totalPages filtered - 1) < Z.of_nat (length filtered)
     <= pageSize * totalPages filtered
  /\ (filtered = [] -> totalPages filtered = 0)
  /\ (forall (page : Z) (i : nat),
        1 <= page ->
        currentData filtered page !! i
        = if (i <? 10)%nat
          then filtered !! (Z.to_nat ((page - 1) * 10) + i)%nat
          else None)
  /\ (length filtered = 25%nat ->
      totalPages filtered = 3 /\ length (currentData filtered 3) = 5%nat).
Proof.
  split; [reflexivity|]. split; [apply totalPages_ceil|].
  split; [intros ->; reflexivity|]. split.
  - intros page i Hp. apply currentData_lookup, Hp.
  - intros Hlen. split.
    + unfold totalPages. rewrite Hlen. reflexivity.
    + unfold currentData, Array_slice.
      rewrite length_take, length_drop, Hlen. reflexivity.
Qed.

(** C6: [handlePageChange(n)] leaves the current page as it is when
    n < 1 or n > totalPages, and sets it to n otherwise; so for n = 0 and
    n = totalPages + 1 the page is unchanged. *)
Theorem handlePageChange_guard (filtered : list InvoiceData) (n cur : Z) :
  (n < 1 \/ n > totalPages filtered ->
   handlePageChange filtered n cur = (tt, cur))
  /\ (1 <= n <= totalPages filtered ->
      handlePageChange filtered n cur = (tt, n))
  /\ handlePageChange filtered 0 cur = (tt, cur)
  /\ handlePageChange filtered (totalPages filtered + 1) cur = (tt, cur).
Proof.
  unfold handlePageChange, ret, setCurrentPage.
  split; [|split; [|split]].
  - intros H. destruct (n <? 1) eqn:E1; [reflexivity|].
    destruct (n >? totalPages filtered) eqn:E2; [reflexivity | lia].
  - intros H. destruct (n <? 1) eqn:E1; [lia|].
    destruct (n >? totalPages filtered) eqn:E2; [lia | reflexivity].
  - reflexivity.
  - destruct (totalPages filtered + 1 <? 1); [reflexivity|].
    destruct (totalPages filtered + 1 >? totalPages filtered) eqn:E;
      [reflexivity | lia].
Qed.

End PagingFacts.

(** Witness of C5: 25 records, page 3, its last record. *)
Lemma pagination_witness :
  currentData Sample.twentyFiveRecords 3 !! 4%nat = Sample.twentyFiveRecords !! 24%nat
  /\ length (currentData Sample.twentyFiveRecords 3) = 5%nat.
Proof.
  pose proof (pagination Sample.twentyFiveRecords) as (_ & _ & _ & Hslice & Hlast).
  split; [apply (Hslice 3 4%nat); lia | apply Hlast; reflexivity].
Defined.

(** Witness of C6: 3 pages, requests for pages 0, 2 and 4 from page 1. *)
Lemma handlePageChange_guard_witness :
  handlePageChange Sample.twentyFiveRecords 0 1 = (tt, 1)
  /\ handlePageChange Sample.twentyFiveRecords 2 1 = (tt, 2)
  /\ handlePageChange Sample.twentyFiveRecords 4 1 = (tt, 1).
Proof.
  pose proof (handlePageChange_guard Sample.twentyFiveRecords 0 1) as (H0 & _).
  pose proof (handlePageChange_guard Sample.twentyFiveRecords 2 1) as (_ & H2 & _).
  pose proof (handlePageChange_guard Sample.twentyFiveRecords 4 1) as (H4 & _).
  change (totalPages Sample.twentyFiveRecords) with 3 in *.
  split; [apply H0; lia|]. split; [apply H2; lia | apply H4; lia].
Defined.

(** ** Facets *)

Section FacetFacts.

Lemma String_eqb_eq (a b : jsstring) : String_eqb a b = true <-> a = b.
Proof.
  revert b. induction a as [|c a IH]; intros [|d b]; cbn;
    try (split; [discriminate | discriminate]); [tauto|].
  rewrite andb_true_iff, N.eqb_eq, IH. split; [intros [-> ->] | intros [= -> ->]];
    auto.
Qed.

Lemma String_ltb_irrefl (a : jsstring) : String_ltb a a = false.
Proof.
  induction a as [|c a IH]; cbn; [reflexivity|].
  rewrite N.ltb_irrefl, N.eqb_refl, IH. reflexivity.
Qed.

Lemma String_lt_trans (a b c : jsstring) :
  String_lt a b -> String_lt b c -> String_lt a c.
Proof.
  unfold String_lt. revert b c.
  induction a as [|x a IH]; intros [|y b] [|z c]; cbn; try discriminate; auto.
  rewrite !orb_true_iff, !andb_true_iff, !N.ltb_lt, !N.eqb_eq.
  intros [Hxy | [-> Hab]] [Hyz | [-> Hbc]]; try (left; lia); auto.
  right. split; [reflexivity|]. eapply IH; eassumption.
Qed.

Lemma String_ltb_total (a b : jsstring) :
  a <> b -> String_ltb a b = false -> String_ltb b a = true.
Proof.
  revert b. induction a as [|x a IH]; intros [|y b]; cbn; try congruence.
  intros Hne. rewrite orb_false_iff, andb_false_iff, N.ltb_ge.
  intros [Hyx Hor]. rewrite orb_true_iff, andb_true_iff, N.ltb_lt, N.eqb_eq.
  destruct (N.eq_dec x y) as [-> | Hxy].
  - right. split; [reflexivity|]. apply IH; [congruence|].
    destruct Hor as [Hor | Hor]; [rewrite N.eqb_refl in Hor; discriminate|].
    exact Hor.
  - left. lia.
Qed.

Lemma Set_has_elem (s : list jsstring) (x : jsstring) :
  Set_has s x = true <-> x ∈ s.
Proof.
  unfold Set_has. rewrite existsb_exists, list_elem_of_In. split.
  - intros (y & Hy & Heq). apply String_eqb_eq in Heq. subst. exact Hy.
  - intros Hx. exists x. split; [exact Hx | apply String_eqb_eq; reflexivity].
Qed.

Lemma Set_add_NoDup (s : list jsstring) (x : jsstring) :
  NoDup s -> NoDup (Set_add s x).
Proof.
  intros Hs. unfold Set_add. destruct (Set_has s x) eqn:E; [exact Hs|].
  apply NoDup_app. split; [exact Hs|]. split; [|apply NoDup_singleton].
  intros y Hy ->%list_elem_of_singleton.
  apply Set_has_elem in Hy. congruence.
Qed.

Lemma Set_add_elem (s : list jsstring) (x y : jsstring) :
  y ∈ Set_add s x <-> y ∈ s \/ y = x.
Proof.
  unfold Set_add. destruct (Set_has s x) eqn:E.
  - apply Set_has_elem in E. split; [auto|]. intros [H | ->]; assumption.
  - rewrite elem_of_app, list_elem_of_singleton. reflexivity.
Qed.

Lemma fold_Set_add (l acc : list jsstring) :
  NoDup acc ->
  NoDup (fold_left Set_add l acc)
  /\ forall y, y ∈ fold_left Set_add l acc <-> y ∈ acc \/ y ∈ l.
Proof.
  revert acc. induction l as [|x l IH]; intros acc Hacc; cbn.
  - split; [exact Hacc|]. intros y. rewrite elem_of_nil. tauto.
  - destruct (IH (Set_add acc x) (Set_add_NoDup _ _ Hacc)) as [Hnd Hel].
    split; [exact Hnd|]. intros y.
    rewrite Hel, Set_add_elem, elem_of_cons. tauto.
Qed.

Lemma Set_from_NoDup (l : list jsstring) : NoDup (Set_from l).
Proof. apply fold_Set_add, NoDup_nil_2. Qed.

Lemma Set_from_elem (l : list jsstring) (y : jsstring) :
  y ∈ Set_from l <-> y ∈ l.
Proof.
  unfold Set_from. destruct (fold_Set_add l [] (NoDup_nil_2)) as [_ H].
  rewrite H, elem_of_nil. tauto.
Qed.

Lemma sort_insert_elem (x y : jsstring) (l : list jsstring) :
  y ∈ sort_insert x l <-> y = x \/ y ∈ l.
Proof.
  induction l as [|z l IH]; cbn.
  - rewrite list_elem_of_singleton, elem_of_nil. tauto.
  - destruct (String_ltb z x); rewrite !elem_of_cons; [rewrite IH|]; tauto.
Qed.

Lemma sort_insert_sorted (x : jsstring) (l : list jsstring) :
  StronglySorted String_lt l -> x ∉ l ->
  StronglySorted String_lt (sort_insert x l).
Proof.
  induction 1 as [|z l Hl IH Hz]; intros Hx; cbn.
  - repeat constructor.
  - apply not_elem_of_cons in Hx as [Hxz Hxl].
    destruct (String_ltb z x) eqn:E.
    + constructor; [apply IH, Hxl|].
      apply Forall_forall. intros y Hy%sort_insert_elem.
      destruct Hy as [-> | Hy]; [exact E|].
      rewrite Forall_forall in Hz. apply Hz, Hy.
    + assert (Hlt : String_lt x z) by (apply String_ltb_total; congruence).
      constructor; [constructor; assumption|].
      constructor; [exact Hlt|].
      eapply Forall_impl; [exact Hz|].
      intros y Hy. eapply String_lt_trans; eassumption.
Qed.

Lemma Array_sort_elem (l : list jsstring) (y : jsstring) :
  y ∈ Array_sort l <-> y ∈ l.
Proof.
  induction l as [|x l IH]; cbn; [reflexivity|].
  rewrite sort_insert_elem, elem_of_cons, IH. reflexivity.
Qed.

Lemma Array_sort_sorted (l : list jsstring) :
  NoDup l -> StronglySorted String_lt (Array_sort l).
Proof.
  induction 1 as [|x l Hx Hl IH]; cbn; [constructor|].
  apply sort_insert_sorted; [exact IH|].
  rewrite Array_sort_elem. exact Hx.
Qed.

Lemma facet_of_field (field : InvoiceData -> jsstring)
  (data : list InvoiceData) :
  isFacet field data
    (Array_sort (Set_from (List.filter truthy (map field data)))).
Proof.
  split; [apply Array_sort_sorted, Set_from_NoDup|].
  intros x. rewrite Array_sort_elem, Set_from_elem, list_elem_of_In, filter_In.
  rewrite in_map_iff. split.
  - intros [(r & Hr & Hin) Ht]. split; [intros ->; discriminate|].
    exists r. rewrite list_elem_of_In. auto.
  - intros [Hne (r & Hin & Hr)]. split.
    + exists r. rewrite <- list_elem_of_In. auto.
    + destruct x; [congruence | reflexivity].
Qed.

(** C9: each facet list is the sorted list, without duplicates, of the
    non-empty values of its field over the whole record store; it is
    computed from the records alone, so a change of the predicate set
    leaves it as it is. *)
Theorem facets_of_record_store (st : State) :
  isFacet 开票公司 (invoiceData st) (uniqueCompanies (invoiceData st))
  /\ isFacet 开票公司 (invoiceData st) (uniqueInvoiceCompanies (invoiceData st))
  /\ isFacet 收票公司 (invoiceData st) (uniqueBillingCompanies (invoiceData st))
  /\ isFacet 产品名称 (invoiceData st) (uniqueProducts (invoiceData st))
  /\ forall c : PredicateChange,
       uniqueCompanies (invoiceData (applyChange c st))
       = uniqueCompanies (invoiceData st)
       /\ uniqueInvoiceCompanies (invoiceData (applyChange c st))
          = uniqueInvoiceCompanies (invoiceData st)
       /\ uniqueBillingCompanies (invoiceData (applyChange c st))
          = uniqueBillingCompanies (invoiceData st)
       /\ uniqueProducts (invoiceData (applyChange c st))
          = uniqueProducts (invoiceData st).
Proof.
  repeat (split; [apply facet_of_field|]).
  intros c. destruct c; repeat split.
Qed.

End FacetFacts.

(** ** More on pagination *)

Section PageFacts.

Lemma Array_slice_take_drop {A : Type} (l : list A) (a b : Z) :
  0 <= a <= b ->
  Array_slice l a b = take (Z.to_nat (b - a)) (drop (Z.to_nat a) l).
Proof.
  intros Hab. unfold Array_slice, relativeIndex.
  destruct (a <? 0) eqn:Ea; [lia|]. destruct (b <? 0) eqn:Eb; [lia|].
  destruct (Z.le_gt_cases (Z.of_nat (length l)) a) as [Hge | Hlt].
  - rewrite !drop_ge by lia. rewrite !take_nil. reflexivity.
  - replace (Z.to_nat (Z.min a (Z.of_nat (length l)))) with (Z.to_nat a) by lia.
    destruct (Z.le_gt_cases b (Z.of_nat (length l))) as [Hb | Hb].
    + f_equal. lia.
    + rewrite !take_ge by (rewrite length_drop; lia). reflexivity.
Qed.

Lemma currentData_take_drop (filtered : list InvoiceData) (page : Z) :
  1 <= page ->
  currentData filtered page
  = take 10 (drop (10 * Z.to_nat (page - 1)) filtered).
Proof.
  intros Hp. unfold currentData, pageSize.
  rewrite Array_slice_take_drop by lia. f_equal; [lia | f_equal; lia].
Qed.

Lemma pages_concat (filtered : list InvoiceData) (n : nat) :
  concat (map (fun p => currentData filtered (Z.of_nat p)) (seq 1 n))
  = take (10 * n) filtered.
Proof.
  induction n as [|n IH]; [reflexivity|].
  rewrite seq_S, map_app, concat_app, IH. cbn [map concat].
  rewrite app_nil_r, currentData_take_drop by lia.
  replace (10 * Z.to_nat (Z.of_nat (1 + n) - 1))%nat with (10 * n)%nat by lia.
  rewrite take_take_drop. f_equal. lia.
Qed.

Lemma totalPages_nonneg (filtered : list InvoiceData) :
  0 <= totalPages filtered.
Proof. pose proof (totalPages_ceil filtered). unfold pageSize in *. lia. Qed.

Lemma totalPages_pos (filtered : list InvoiceData) :
  filtered <> [] -> 1 <= totalPages filtered.
Proof.
  intros Hne. pose proof (totalPages_ceil filtered). unfold pageSize in *.
  destruct filtered; [congruence | cbn [length] in *; lia].
Qed.

(** X1: the pages 1 to [totalPages], one after the other, are the
    filtered view: every record is on exactly one page, in order. *)
Theorem pages_partition_view (filtered : list InvoiceData) :
  concat (map (fun p => currentData filtered (Z.of_nat p))
              (seq 1 (Z.to_nat (totalPages filtered))))
  = filtered.
Proof.
  rewrite pages_concat. apply take_ge.
  pose proof (totalPages_ceil filtered). unfold pageSize in *. lia.
Qed.

Lemma currentData_nonempty (filtered : list InvoiceData) (page : Z) :
  1 <= page <= totalPages filtered -> currentData filtered page <> [].
Proof.
  intros Hp Hnil. pose proof (totalPages_ceil filtered) as Hc.
  unfold pageSize in Hc. apply (f_equal length) in Hnil.
  rewrite currentData_take_drop, length_take, length_drop in Hnil by lia.
  change (length (@nil InvoiceData)) with 0%nat in Hnil. lia.
Qed.

(** X2: every page before the last holds exactly 10 records, and the
    last page holds between 1 and 10: the records left over. *)
Theorem page_sizes (filtered : list InvoiceData) (page : Z) :
  1 <= page <= totalPages filtered ->
  (page < totalPages filtered -> length (currentData filtered page) = 10%nat)
  /\ (page = totalPages filtered ->
      Z.of_nat (length (currentData filtered page))
      = Z.of_nat (length filtered) - 10 * (totalPages filtered - 1))
  /\ (1 <= length (currentData filtered page) <= 10)%nat.
Proof.
  intros Hp. pose proof (totalPages_ceil filtered) as Hc.
  unfold pageSize in Hc.
  rewrite currentData_take_drop, length_take, length_drop by lia.
  repeat split; lia.
Qed.

Lemma handlePageChange_page (filtered : list InvoiceData) (n cur : Z) :
  snd (handlePageChange filtered n cur)
  = if decide (1 <= n <= totalPages filtered) then n else cur.
Proof.
  unfold handlePageChange, ret, setCurrentPage.
  destruct (Z.ltb_spec n 1); cbn [orb].
  - rewrite decide_False by lia. reflexivity.
  - destruct (n >? totalPages filtered) eqn:E.
    + apply Z.gtb_lt in E. rewrite decide_False by lia. reflexivity.
    + rewrite Z.gtb_ltb in E. apply Z.ltb_ge in E.
      rewrite decide_True by lia. reflexivity.
Qed.

(** X4: in a state whose page is within 1..[totalPages], a button is
    disabled exactly when its click would leave the page where it is;
    and a click never leaves that range. *)
Theorem disabled_iff_click_is_idle (b : PageButton)
  (filtered : list InvoiceData) (currentPage : Z) :
  1 <= currentPage <= totalPages filtered ->
  (disabled b filtered currentPage = true
   <-> snd (onClick b filtered currentPage) = currentPage)
  /\ 1 <= snd (onClick b filtered currentPage) <= totalPages filtered.
Proof.
  intros Hp. unfold onClick. rewrite handlePageChange_page.
  destruct b; cbn [disabled requestedPage]; rewrite Z.eqb_eq;
    case_decide; split; try split; intros; lia.
Qed.

(** X5: next then previous, and previous then next, come back to the
    page they started from. *)
Theorem next_previous_round_trip (filtered : list InvoiceData)
  (currentPage : Z) :
  (1 <= currentPage < totalPages filtered ->
   snd (onClick previousPage filtered
          (snd (onClick nextPage filtered currentPage))) = currentPage)
  /\ (1 < currentPage <= totalPages filtered ->
      snd (onClick nextPage filtered
             (snd (onClick previousPage filtered currentPage)))
      = currentPage).
Proof.
  unfold onClick. rewrite !handlePageChange_page. cbn [requestedPage].
  split; intros Hp; repeat case_decide; lia.
Qed.

End PageFacts.

(** ** The component over time *)

Section EventFacts.

Variable toLowerCase : jsstring -> jsstring.
Variable parseFloat : jsstring -> float.
Variable LocalTZA : Z.
Variable legacyParse : jsstring -> timevalue.

Abbreviation view' := (view toLowerCase parseFloat LocalTZA legacyParse).
Abbreviation pageAfter' := (pageAfter toLowerCase parseFloat LocalTZA legacyParse).
Abbreviation recompute' := (recompute toLowerCase parseFloat LocalTZA legacyParse).
Abbreviation step' := (step toLowerCase parseFloat LocalTZA legacyParse).
Abbreviation run' := (run toLowerCase parseFloat LocalTZA legacyParse).
Abbreviation inRange := (pageInRange toLowerCase parseFloat LocalTZA legacyParse).

Lemma view_withCurrentPage (page : Z) (st : State) :
  view' (withCurrentPage page st) = view' st.
Proof. rewrite !view_filter. reflexivity. Qed.

Lemma pageInRange_recompute (st : State) :
  1 <= currentPage st -> inRange (recompute' st).
Proof.
  intros Hp. unfold pageInRange, recompute.
  rewrite view_withCurrentPage. cbn [currentPage withCurrentPage].
  split; [apply pageAfter_ge_1, Hp|].
  intros Hne. rewrite pageAfter_nonempty by exact Hne.
  apply totalPages_pos, Hne.
Qed.

Lemma pageInRange_step (st : State) (e : Event) :
  inRange st -> inRange (step' st e).
Proof.
  intros [Hp Hle]. destruct e as [data | c | | b]; cbn [step].
  - apply pageInRange_recompute. exact Hp.
  - destruct (changesDependencies c st); [|split; assumption].
    apply pageInRange_recompute. destruct c; exact Hp.
  - apply pageInRange_recompute. exact Hp.
  - unfold pageInRange, onClick.
    rewrite view_withCurrentPage, handlePageChange_page.
    cbn [currentPage withCurrentPage].
    case_decide; (split; [lia|]); [intros _; lia | exact Hle].
Qed.

Lemma pageInRange_run (events : list Event) (st : State) :
  inRange st -> inRange (run' events st).
Proof.
  revert st. induction events as [|e events IH]; intros st Hst; [exact Hst|].
  cbn [run fold_left]. apply IH, pageInRange_step, Hst.
Qed.

(** X3: after any sequence of loads, filter changes, clearings and
    clicks from the mounted state, the current page is at least 1, and
    when the filtered view has a record the current page is one of its
    pages and shows at least one record. *)
Theorem shown_page_is_never_empty (events : list Event) :
  1 <= currentPage (run' events initialState)
  /\ (view' (run' events initialState) <> [] ->
      currentPage (run' events initialState)
      <= totalPages (view' (run' events initialState))
      /\ currentData (view' (run' events initialState))
           (currentPage (run' events initialState)) <> []).
Proof.
  destruct (pageInRange_run events initialState) as [Hp Hle].
  { split; [reflexivity|]. intros Hne. exfalso. apply Hne.
    rewrite view_filter. reflexivity. }
  split; [exact Hp|]. intros Hne. split; [apply Hle, Hne|].
  apply currentData_nonempty. split; [exact Hp | apply Hle, Hne].
Qed.

End EventFacts.

(** ** More on the filter *)

Section FilterMore.

Variable toLowerCase : jsstring -> jsstring.
Variable parseFloat : jsstring -> float.
Variable LocalTZA : Z.
Variable legacyParse : jsstring -> timevalue.

Abbreviation view' := (view toLowerCase parseFloat LocalTZA legacyParse).
Abbreviation passes := (passesAll toLowerCase parseFloat LocalTZA legacyParse).

Lemma truthy_false (s : jsstring) : truthy s = false <-> s = [].
Proof. destruct s; cbn; split; congruence. Qed.

Lemma truthy_true (s : jsstring) : truthy s = true <-> s <> [].
Proof. destruct s; cbn; split; congruence. Qed.

Lemma trim_nil : trim [] = [].
Proof. reflexivity. Qed.

Lemma view_elem (st : State) (r : InvoiceData) :
  r ∈ view' st <-> r ∈ invoiceData st /\ passes st r = true.
Proof. rewrite view_filter, !list_elem_of_In, filter_In. reflexivity. Qed.

Lemma hasActiveFilters_false (st : State) :
  hasActiveFilters st = false ->
  searchKeyword st = [] /\ selectedProduct st = []
  /\ selectedBillingCompany st = [] /\ selectedInvoiceCompany st = []
  /\ dateRange st = mkDateRange [] [] /\ priceRange st = mkPriceRange [] [].
Proof.
  unfold hasActiveFilters. rewrite !orb_false_iff, !truthy_false.
  destruct (dateRange st) as [s e], (priceRange st) as [lo hi]. cbn.
  intros ((((((((-> & _) & ->) & ->) & ->) & ->) & ->) & ->) & ->).
  repeat split.
Qed.

Lemma passes_no_filter (st : State) (r : InvoiceData) :
  searchKeyword st = [] -> selectedProduct st = [] ->
  selectedBillingCompany st = [] -> selectedInvoiceCompany st = [] ->
  dateRange st = mkDateRange [] [] -> priceRange st = mkPriceRange [] [] ->
  passes st r = true.
Proof.
  intros Hk Hp Hb Hi Hd Hr.
  unfold passesAll, keywordRejects, productRejects, billingCompanyRejects,
    invoiceCompanyRejects, dateRejects, priceRejects.
  rewrite Hk, Hp, Hb, Hi, Hd, Hr. reflexivity.
Qed.

(** X6: when [hasActiveFilters] is false, the filtered view is the whole
    record list. *)
Theorem no_active_filter_shows_all (st : State) :
  hasActiveFilters st = false -> view' st = invoiceData st.
Proof.
  intros (Hk & Hp & Hb & Hi & Hd & Hr)%hasActiveFilters_false.
  rewrite view_filter. apply filter_all. intros r.
  apply passes_no_filter; assumption.
Qed.

(** X7: after [clearFilters] nothing is active, the view is the whole
    record list, and the render that follows puts the page at 1 as soon
    as there is a record. *)
Theorem clearFilters_shows_all (st : State) :
  hasActiveFilters (clearFilters st) = false
  /\ view' (clearFilters st) = invoiceData st
  /\ (invoiceData st <> [] ->
      currentPage
        (recompute toLowerCase parseFloat LocalTZA legacyParse
           (clearFilters st)) = 1).
Proof.
  assert (Hv : view' (clearFilters st) = invoiceData st).
  { rewrite view_filter. apply filter_all. intros r.
    apply passes_no_filter; reflexivity. }
  split; [reflexivity|]. split; [exact Hv|].
  intros Hne. unfold recompute. cbn [currentPage withCurrentPage].
  apply pageAfter_nonempty. rewrite Hv. exact Hne.
Qed.

Lemma trimStart_white (s : jsstring) :
  Forall (fun c => isWhiteSpace c = true) s -> trimStart s = [].
Proof. induction 1 as [|c s Hc _ IH]; cbn; [|rewrite Hc]; auto. Qed.

Lemma trim_white (s : jsstring) :
  Forall (fun c => isWhiteSpace c = true) s -> trim s = [].
Proof. intros Hs. unfold trim. rewrite trimStart_white by exact Hs. reflexivity. Qed.

(** X8: a keyword made of white space only filters nothing: the view is
    the one of the empty keyword.  Yet [hasActiveFilters], which does
    not trim, is true for it. *)
Theorem blank_keyword_is_inactive (st : State) (keyword : jsstring) :
  Forall (fun c => isWhiteSpace c = true) keyword ->
  keyword <> [] ->
  view' (applyChange (setSearchKeyword keyword) st)
  = view' (applyChange (setSearchKeyword []) st)
  /\ hasActiveFilters (applyChange (setSearchKeyword keyword) st) = true.
Proof.
  intros Hw Hne. split.
  - rewrite !view_filter. cbn [applyChange invoiceData].
    apply filter_ext. intros r.
    unfold passesAll, keywordRejects. cbn [applyChange searchKeyword].
    rewrite trim_white by exact Hw. reflexivity.
  - unfold hasActiveFilters. cbn [applyChange searchKeyword].
    apply truthy_true in Hne. rewrite Hne. reflexivity.
Qed.

(** X9: every record of the view agrees with the exact-match filters
    that are set: its product, its receiving company and its issuing
    company are the selected ones; and with a keyword set, one of its
    four text fields contains the keyword. *)
Theorem view_records_match (st : State) (r : InvoiceData) :
  r ∈ view' st ->
  (selectedProduct st <> [] -> 产品名称 r = selectedProduct st)
  /\ (selectedBillingCompany st <> [] -> 收票公司 r = selectedBillingCompany st)
  /\ (selectedInvoiceCompany st <> [] -> 开票公司 r = selectedInvoiceCompany st)
  /\ (trim (searchKeyword st) <> [] -> matchesKeyword toLowerCase st r = true).
Proof.
  intros [_ Hp]%view_elem. unfold passesAll in Hp.
  rewrite !andb_true_iff, !negb_true_iff in Hp.
  destruct Hp as (((((Hk & Hpr) & Hb) & Hi) & _) & _).
  repeat split.
  - intros Hs%truthy_true. unfold productRejects in Hpr. rewrite Hs in Hpr.
    apply negb_false_iff, String_eqb_eq in Hpr. exact Hpr.
  - intros Hs%truthy_true. unfold billingCompanyRejects in Hb.
    rewrite Hs in Hb. apply negb_false_iff, String_eqb_eq in Hb. exact Hb.
  - intros Hs%truthy_true. unfold invoiceCompanyRejects in Hi.
    rewrite Hs in Hi. apply negb_false_iff, String_eqb_eq in Hi. exact Hi.
  - intros Hs%truthy_true. unfold keywordRejects in Hk. rewrite Hs in Hk.
    apply negb_false_iff in Hk. exact Hk.
Qed.

(** X10: each record is judged alone: the view of two record lists one
    after the other is the two views one after the other, and filtering
    the view again changes nothing. *)
Theorem filter_is_recordwise (st : State) (data1 data2 : list InvoiceData) :
  view' (setInvoiceData (data1 ++ data2) st)
  = view' (setInvoiceData data1 st) ++ view' (setInvoiceData data2 st)
  /\ view' (setInvoiceData (view' st) st) = view' st.
Proof.
  rewrite !view_filter. cbn [setInvoiceData invoiceData]. split.
  - apply List.filter_app.
  - change (passes (setInvoiceData
                      (List.filter (passes st) (invoiceData st)) st))
      with (passes st).
    induction (invoiceData st) as [|x l IH]; [reflexivity|]. cbn.
    destruct (passes st x) eqn:E; cbn; [rewrite E, IH|]; auto.
Qed.

Lemma filter_sublist_impl {A : Type} (f g : A -> bool) (l : list A) :
  (forall x, f x = true -> g x = true) ->
  List.filter f l `sublist_of` List.filter g l.
Proof.
  intros Hfg. induction l as [|x l IH]; cbn; [constructor|].
  destruct (f x) eqn:Ef.
  - rewrite (Hfg x Ef). apply sublist_skip, IH.
  - destruct (g x); [apply sublist_cons, IH | exact IH].
Qed.

(** X11: setting a filter whose slot was inactive can only remove
    records: the new view is a subsequence of the old one. *)
Theorem setting_a_filter_narrows (c : PredicateChange) (st : State) :
  slotInactive c st ->
  view' (applyChange c st) `sublist_of` view' st.
Proof.
  intros Hc. rewrite !view_filter.
  replace (invoiceData (applyChange c st)) with (invoiceData st)
    by (destruct c; reflexivity).
  apply filter_sublist_impl. intros r.
  unfold passesAll, keywordRejects, productRejects, billingCompanyRejects,
    invoiceCompanyRejects, dateRejects, priceRejects.
  destruct c; cbn [slotInactive] in Hc;
    cbn [applyChange searchKeyword selectedProduct selectedBillingCompany
         selectedInvoiceCompany dateRange priceRange];
    rewrite Hc; cbn [truthy andb orb negb start end_ min max];
    rewrite !andb_true_iff; tauto.
Qed.

(** X12: a value offered by a facet list, chosen while nothing else is
    set, matches at least one record: the view is not empty and the
    render puts the page at 1. *)
Theorem suggestion_matches_a_record (st : State) (x : jsstring) :
  hasActiveFilters st = false ->
  (x ∈ uniqueProducts (invoiceData st) ->
   view' (applyChange (setSelectedProduct x) st) <> []
   /\ pageAfter toLowerCase parseFloat LocalTZA legacyParse
        (applyChange (setSelectedProduct x) st) = 1)
  /\ (x ∈ uniqueBillingCompanies (invoiceData st) ->
      view' (applyChange (setSelectedBillingCompany x) st) <> []
      /\ pageAfter toLowerCase parseFloat LocalTZA legacyParse
           (applyChange (setSelectedBillingCompany x) st) = 1)
  /\ (x ∈ uniqueInvoiceCompanies (invoiceData st) ->
      view' (applyChange (setSelectedInvoiceCompany x) st) <> []
      /\ pageAfter toLowerCase parseFloat LocalTZA legacyParse
           (applyChange (setSelectedInvoiceCompany x) st) = 1).
Proof.
  intros (Hk & Hp & Hb & Hi & Hd & Hr)%hasActiveFilters_false.
  assert (Hpage : forall st', view' st' <> [] ->
            view' st' <> []
            /\ pageAfter toLowerCase parseFloat LocalTZA legacyParse st' = 1)
    by (intros st' Hne; split; [exact Hne | apply pageAfter_nonempty, Hne]).
  assert (Hgen : forall (c : PredicateChange) (r : InvoiceData),
            r ∈ invoiceData st ->
            passes (applyChange c st) r = true ->
            view' (applyChange c st) <> []).
  { intros c r Hin Hpass Hnil.
    assert (Hr' : r ∈ view' (applyChange c st)).
    { apply view_elem. split; [destruct c; exact Hin | exact Hpass]. }
    rewrite Hnil in Hr'. apply elem_of_nil in Hr'. exact Hr'. }
  split; [|split]; intros Hx; apply Hpage;
    apply facet_of_field in Hx as (_ & r & Hin & Hf);
    apply (Hgen _ r Hin);
    unfold passesAll, keywordRejects, productRejects, billingCompanyRejects,
      invoiceCompanyRejects, dateRejects, priceRejects;
    cbn [applyChange searchKeyword selectedProduct selectedBillingCompany
         selectedInvoiceCompany dateRange priceRange];
    rewrite ?Hk, ?Hp, ?Hb, ?Hi, ?Hd, ?Hr, Hf;
    cbn [trim trimStart trimEnd rev truthy andb orb negb start end_ min max
         app];
    rewrite (proj2 (String_eqb_eq x x) eq_refl), andb_false_r; reflexivity.
Qed.

End FilterMore.

(** ** More on facets and counts *)

Section FacetMore.

Variable toLowerCase : jsstring -> jsstring.
Variable parseFloat : jsstring -> float.
Variable LocalTZA : Z.
Variable legacyParse : jsstring -> timevalue.

Abbreviation view' := (view toLowerCase parseFloat LocalTZA legacyParse).

Lemma String_lt_irrefl (a : jsstring) : ~ String_lt a a.
Proof. unfold String_lt. rewrite String_ltb_irrefl. discriminate. Qed.

Lemma sorted_subset_sublist (l1 l2 : list jsstring) :
  StronglySorted String_lt l1 -> StronglySorted String_lt l2 ->
  (forall x, x ∈ l1 -> x ∈ l2) -> l1 `sublist_of` l2.
Proof.
  intros H1 H2. revert l1 H1.
  induction H2 as [|y l2 H2 IH Hy]; intros l1 H1 Hsub.
  - destruct l1 as [|x l1]; [constructor|].
    specialize (Hsub x ltac:(left)). apply elem_of_nil in Hsub. destruct Hsub.
  - destruct l1 as [|x l1]; [apply sublist_nil_l|].
    inversion H1 as [|? ? H1' Hx]; subst.
    rewrite Forall_forall in Hx, Hy.
    assert (Htail : forall z, z ∈ l1 -> z ∈ l2).
    { intros z Hz. pose proof (Hsub z ltac:(right; exact Hz)) as Hz2.
      apply elem_of_cons in Hz2 as [-> | Hz2]; [|exact Hz2].
      pose proof (Hsub x ltac:(left)) as Hx2.
      apply elem_of_cons in Hx2 as [-> | Hx2].
      - exfalso. eapply String_lt_irrefl, Hx, Hz.
      - exfalso. eapply String_lt_irrefl, String_lt_trans;
          [apply Hy, Hx2 | apply Hx, Hz]. }
    pose proof (Hsub x ltac:(left)) as Hx2.
    apply elem_of_cons in Hx2 as [-> | Hx2].
    + apply sublist_skip, IH; assumption.
    + apply sublist_cons, IH; [exact H1|].
      intros z [-> | Hz]%elem_of_cons; [exact Hx2 | apply Htail, Hz].
Qed.

(** X13: the companies listed for the filtered view are a subsequence of
    the companies of the whole record store: sorted, without duplicates,
    and exactly the non-empty issuing companies of the view. *)
Theorem filtered_companies_among_all (st : State) :
  isFacet 开票公司 (view' st) (uniqueFilteredCompanies (view' st))
  /\ uniqueFilteredCompanies (view' st)
     `sublist_of` uniqueCompanies (invoiceData st).
Proof.
  split; [apply facet_of_field|].
  destruct (facet_of_field 开票公司 (view' st)) as [Hs1 He1].
  destruct (facet_of_field 开票公司 (invoiceData st)) as [Hs2 He2].
  apply sorted_subset_sublist; [exact Hs1 | exact Hs2|].
  intros x (Hne & r & Hr & Hf)%He1. apply He2. split; [exact Hne|].
  exists r. split; [|exact Hf].
  rewrite view_filter in Hr. apply list_elem_of_In, filter_In in Hr as [Hr _].
  apply list_elem_of_In, Hr.
Qed.

End FacetMore.

Section CountFacts.

Lemma length_sort_insert (x : jsstring) (l : list jsstring) :
  length (sort_insert x l) = S (length l).
Proof.
  induction l as [|y l IH]; cbn; [reflexivity|].
  destruct (String_ltb y x); cbn; [rewrite IH|]; reflexivity.
Qed.

Lemma length_Array_sort (l : list jsstring) :
  length (Array_sort l) = length l.
Proof.
  unfold Array_sort. induction l as [|x l IH]; cbn [fold_right];
    [reflexivity|].
  rewrite length_sort_insert, IH. reflexivity.
Qed.

Lemma Set_has_filter (s : list jsstring) (x : jsstring) :
  truthy x = true -> Set_has (List.filter truthy s) x = Set_has s x.
Proof.
  intros Hx. apply eq_true_iff_eq.
  rewrite !Set_has_elem, !list_elem_of_In, filter_In. tauto.
Qed.

Lemma fold_Set_add_filter (l acc : list jsstring) :
  fold_left Set_add (List.filter truthy l) (List.filter truthy acc)
  = List.filter truthy (fold_left Set_add l acc).
Proof.
  revert acc. induction l as [|x l IH]; intros acc; [reflexivity|].
  cbn [List.filter fold_left]. destruct (truthy x) eqn:Hx.
  - cbn [fold_left]. rewrite <- IH. f_equal. unfold Set_add.
    rewrite Set_has_filter by exact Hx.
    destruct (Set_has acc x); [reflexivity|].
    rewrite List.filter_app. cbn. rewrite Hx. reflexivity.
  - rewrite <- IH. f_equal. unfold Set_add.
    destruct (Set_has acc x); [reflexivity|].
    rewrite List.filter_app. cbn. rewrite Hx, app_nil_r. reflexivity.
Qed.

Lemma Set_from_filter (l : list jsstring) :
  Set_from (List.filter truthy l) = List.filter truthy (Set_from l).
Proof. apply (fold_Set_add_filter l []). Qed.

Lemma length_filter_truthy (s : list jsstring) :
  NoDup s ->
  (length (List.filter truthy s) <= length s
   <= length (List.filter truthy s) + 1)%nat
  /\ (length s = length (List.filter truthy s) <-> [] ∉ s).
Proof.
  induction 1 as [|x s Hx Hs [IHle IHeq]]; cbn.
  - split; [lia|]. split; [intros _; apply not_elem_of_nil | reflexivity].
  - rewrite not_elem_of_cons. destruct x as [|c x]; cbn.
    + apply IHeq in Hx. split; [lia|]. split; [lia | intros [? _]; congruence].
    + split; [lia|]. rewrite <- IHeq. split.
      * intros [= ->]. split; [discriminate | reflexivity].
      * intros [_ ->]. reflexivity.
Qed.

Lemma length_fold_Set_add (l acc : list jsstring) :
  (length acc <= length (fold_left Set_add l acc) <= length acc + length l)%nat.
Proof.
  revert acc. induction l as [|x l IH]; intros acc; cbn; [lia|].
  specialize (IH (Set_add acc x)). unfold Set_add in *.
  destruct (Set_has acc x); [lia|]. rewrite length_app in IH. cbn in IH. lia.
Qed.

Lemma amounts_nonempty (filtered : list InvoiceData) :
  amounts filtered <> [] -> filtered <> [].
Proof. intros Ha ->. apply Ha. reflexivity. Qed.

Lemma stats_regular (filtered : list InvoiceData) :
  amounts filtered <> [] ->
  totalInvoices (stats filtered) = length filtered
  /\ companyCount (stats filtered)
     = length (Set_from (map 开票公司 filtered))
  /\ productCount (stats filtered)
     = length (Set_from (map 产品名称 filtered))
  /\ maxAmount (stats filtered) = Math_max (amounts filtered)
  /\ minAmount (stats filtered) = Math_min (amounts filtered).
Proof.
  intros Ha. pose proof (amounts_nonempty _ Ha) as Hf. unfold stats.
  destruct filtered as [|r filtered]; [congruence|]. cbn [length Nat.eqb].
  destruct (amounts (r :: filtered)) as [|a l] eqn:E; [congruence|].
  cbn [length Nat.eqb]. repeat split.
Qed.

(** X14: outside the all-zero case, the company count of the statistics
    card is the length of the company list of the view or one more; the
    two agree exactly when no record of the view has an empty issuing
    company, which the card counts and the list leaves out.  The count
    is at least 1 and at most the number of records. *)
Theorem company_count_and_list (filtered : list InvoiceData) :
  amounts filtered <> [] ->
  (length (uniqueFilteredCompanies filtered) <= companyCount (stats filtered)
   <= length (uniqueFilteredCompanies filtered) + 1)%nat
  /\ (companyCount (stats filtered) = length (uniqueFilteredCompanies filtered)
      <-> forall r, r ∈ filtered -> 开票公司 r <> [])
  /\ (1 <= companyCount (stats filtered) <= totalInvoices (stats filtered))%nat.
Proof.
  intros Ha. destruct (stats_regular filtered Ha) as (-> & -> & _).
  unfold uniqueFilteredCompanies.
  rewrite length_Array_sort, Set_from_filter.
  pose proof (length_filter_truthy _ (Set_from_NoDup (map 开票公司 filtered)))
    as [Hle Heq].
  split; [exact Hle|]. split.
  - rewrite Heq, Set_from_elem, list_elem_of_In, in_map_iff. split.
    + intros Hno r Hr Hempty. apply Hno. exists r.
      split; [exact Hempty | apply list_elem_of_In, Hr].
    + intros Hall (r & Hempty & Hr). apply (Hall r); [|exact Hempty].
      apply list_elem_of_In, Hr.
  - pose proof (length_fold_Set_add (map 开票公司 filtered) []) as Hlen.
    fold (Set_from (map 开票公司 filtered)) in Hlen.
    rewrite length_map in Hlen. cbn in Hlen. split; [|lia].
    destruct filtered as [|r filtered]; [exfalso; apply Ha; reflexivity|].
    unfold Set_from. cbn [map fold_left].
    pose proof (length_fold_Set_add (map 开票公司 filtered)
                  (Set_add [] (开票公司 r))) as Hge.
    change (Set_add [] (开票公司 r)) with [开票公司 r]. cbn in Hge. lia.
Qed.

End CountFacts.

(** ** The order of floats *)

Section FloatOrder.

Local Open Scope float_scope.

Lemma SFcompare_key (x y : spec_float) :
  x <> S754_nan -> y <> S754_nan ->
  match SFcompare x y with
  | Some Lt => lex_lt (SFkey x) (SFkey y)
  | Some Eq => SFkey x = SFkey y
  | Some Gt => lex_lt (SFkey y) (SFkey x)
  | None => False
  end.
Proof.
  intros Hx Hy.
  destruct x as [sx | sx | | sx mx ex]; try congruence;
    destruct y as [sy | sy | | sy my ey]; try congruence;
    try (destruct sx; try destruct sy; cbn; try reflexivity; lia);
    try (destruct sy; cbn; try reflexivity; lia).
  cbn [SFcompare].
  destruct sx, sy; cbn [SFkey lex_lt]; try lia;
    destruct (Z.compare_spec ex ey); try lia;
    fold (Pos.compare mx my);
    destruct (Pos.compare_spec mx my); cbn [CompOpp]; subst;
    try reflexivity; lia.
Qed.

Lemma not_nan_spec (x : float) : is_nan x = false <-> Prim2SF x <> S754_nan.
Proof.
  rewrite is_nan_spec. destruct (Prim2SF x); split; congruence.
Qed.

Lemma leb_key (x y : float) :
  is_nan x = false -> is_nan y = false ->
  (x <=? y) = true <-> lex_le (SFkey (Prim2SF x)) (SFkey (Prim2SF y)).
Proof.
  intros Hx%not_nan_spec Hy%not_nan_spec.
  rewrite FloatAxioms.leb_spec. unfold SFleb.
  pose proof (SFcompare_key _ _ Hx Hy) as Hc.
  destruct (SFcompare (Prim2SF x) (Prim2SF y)) as [[| |]|];
    destruct (SFkey (Prim2SF x)) as [[a1 a2] a3];
    destruct (SFkey (Prim2SF y)) as [[b1 b2] b3];
    cbn [lex_le lex_lt] in *; try tauto.
  - injection Hc as -> -> ->. split; [intros _; lia | reflexivity].
  - split; [intros _; lia | reflexivity].
  - split; [discriminate | lia].
Qed.

Lemma ltb_key (x y : float) :
  (x <? y) = true ->
  is_nan x = false /\ is_nan y = false
  /\ lex_lt (SFkey (Prim2SF x)) (SFkey (Prim2SF y)).
Proof.
  rewrite FloatAxioms.ltb_spec, !not_nan_spec. unfold SFltb. intros Hlt.
  assert (Hx : Prim2SF x <> S754_nan)
    by (intros E; rewrite E in Hlt; discriminate).
  assert (Hy : Prim2SF y <> S754_nan)
    by (intros E; rewrite E in Hlt; destruct (Prim2SF x); discriminate).
  pose proof (SFcompare_key _ _ Hx Hy) as Hc.
  destruct (SFcompare (Prim2SF x) (Prim2SF y)) as [[| |]|];
    try discriminate. auto.
Qed.

Lemma leb_refl (x : float) : is_nan x = false -> (x <=? x) = true.
Proof.
  intros Hx. apply leb_key; [exact Hx | exact Hx|].
  destruct (SFkey (Prim2SF x)) as [[a1 a2] a3]. cbn. lia.
Qed.

Lemma leb_trans (x y z : float) :
  is_nan x = false -> is_nan y = false -> is_nan z = false ->
  (x <=? y) = true -> (y <=? z) = true -> (x <=? z) = true.
Proof.
  intros Hx Hy Hz. rewrite !leb_key by assumption.
  destruct (SFkey (Prim2SF x)) as [[a1 a2] a3];
    destruct (SFkey (Prim2SF y)) as [[b1 b2] b3];
    destruct (SFkey (Prim2SF z)) as [[c1 c2] c3]. cbn. lia.
Qed.

Lemma ltb_leb (x y : float) : (x <? y) = true -> (x <=? y) = true.
Proof.
  intros (Hx & Hy & Hlt)%ltb_key. apply leb_key; [exact Hx | exact Hy|].
  destruct (SFkey (Prim2SF x)) as [[a1 a2] a3];
    destruct (SFkey (Prim2SF y)) as [[b1 b2] b3]. cbn in *. lia.
Qed.

Lemma not_ltb_leb (x y : float) :
  is_nan x = false -> is_nan y = false ->
  (x <? y) = false -> (y <=? x) = true.
Proof. intros Hx Hy Hlt. rewrite <- negb_ltb, Hlt by assumption. reflexivity. Qed.

Lemma isPosZero_spec (x : float) :
  isPosZero x = true -> Prim2SF x = S754_zero false.
Proof.
  unfold isPosZero. rewrite classify_spec. unfold SF64classify, SFclassify.
  destruct (Prim2SF x) as [[|] | [|] | | [|] m e]; try discriminate;
    try reflexivity; destruct (_ =? _)%Z; discriminate.
Qed.

Lemma isNegZero_spec (x : float) :
  isNegZero x = true -> Prim2SF x = S754_zero true.
Proof.
  unfold isNegZero. rewrite classify_spec. unfold SF64classify, SFclassify.
  destruct (Prim2SF x) as [[|] | [|] | | [|] m e]; try discriminate;
    try reflexivity; destruct (_ =? _)%Z; discriminate.
Qed.

Lemma zeros_leb (x y : float) :
  (isPosZero x = true \/ isNegZero x = true) ->
  (isPosZero y = true \/ isNegZero y = true) ->
  is_nan x = false /\ is_nan y = false /\ (x <=? y) = true.
Proof.
  intros Hx Hy.
  assert (Hx' : exists s, Prim2SF x = S754_zero s)
    by (destruct Hx as [H%isPosZero_spec | H%isNegZero_spec]; eauto).
  assert (Hy' : exists s, Prim2SF y = S754_zero s)
    by (destruct Hy as [H%isPosZero_spec | H%isNegZero_spec]; eauto).
  destruct Hx' as [sx Ex], Hy' as [sy Ey].
  rewrite !is_nan_spec, FloatAxioms.leb_spec, Ex, Ey. auto.
Qed.

End FloatOrder.

(** ** The extremes of the statistics *)

Section ExtremeFacts.

Local Open Scope float_scope.

Lemma leb_neg_infinity (x : float) :
  is_nan x = false -> (x <=? neg_infinity) = true -> x = neg_infinity.
Proof.
  rewrite is_nan_spec, FloatAxioms.leb_spec. intros Hx Hle.
  apply Prim2SF_inj. change (Prim2SF neg_infinity) with (S754_infinity true).
  destruct (Prim2SF x) as [[|] | [|] | | [|] m e]; try discriminate;
    reflexivity.
Qed.

Lemma infinity_leb (x : float) :
  is_nan x = false -> (infinity <=? x) = true -> x = infinity.
Proof.
  rewrite is_nan_spec, FloatAxioms.leb_spec. intros Hx Hle.
  apply Prim2SF_inj. change (Prim2SF infinity) with (S754_infinity false).
  destruct (Prim2SF x) as [[|] | [|] | | [|] m e]; try discriminate;
    reflexivity.
Qed.

Lemma maxStep_spec (h n : float) :
  is_nan h = false -> is_nan n = false ->
  is_nan (maxStep h n) = false
  /\ (h <=? maxStep h n) = true /\ (n <=? maxStep h n) = true
  /\ (maxStep h n = h \/ maxStep h n = n).
Proof.
  intros Hh Hn. unfold maxStep.
  destruct (isPosZero n && isNegZero h) eqn:Ez.
  - apply andb_true_iff in Ez as [Hp Hz].
    destruct (zeros_leb h n) as (_ & _ & Hle); auto.
    repeat split; auto using leb_refl.
  - destruct (h <? n) eqn:El.
    + repeat split; auto using leb_refl, ltb_leb.
    + repeat split; auto using leb_refl, not_ltb_leb.
Qed.

Lemma minStep_spec (l n : float) :
  is_nan l = false -> is_nan n = false ->
  is_nan (minStep l n) = false
  /\ (minStep l n <=? l) = true /\ (minStep l n <=? n) = true
  /\ (minStep l n = l \/ minStep l n = n).
Proof.
  intros Hl Hn. unfold minStep.
  destruct (isNegZero n && isPosZero l) eqn:Ez.
  - apply andb_true_iff in Ez as [Hz Hp].
    destruct (zeros_leb n l) as (_ & _ & Hle); auto.
    repeat split; auto using leb_refl.
  - destruct (n <? l) eqn:El.
    + repeat split; auto using leb_refl, ltb_leb.
    + repeat split; auto using leb_refl, not_ltb_leb.
Qed.

Lemma fold_maxStep (xs : list float) (h : float) :
  is_nan h = false -> Forall (fun x => is_nan x = false) xs ->
  is_nan (fold_left maxStep xs h) = false
  /\ (h <=? fold_left maxStep xs h) = true
  /\ Forall (fun x => (x <=? fold_left maxStep xs h) = true) xs
  /\ (fold_left maxStep xs h = h \/ In (fold_left maxStep xs h) xs).
Proof.
  intros Hh Hxs. revert h Hh.
  induction Hxs as [|x xs Hx Hxs IH]; intros h Hh; cbn [fold_left].
  - repeat split; auto using leb_refl.
  - destruct (maxStep_spec h x Hh Hx) as (Hn & Hhm & Hxm & Hor).
    destruct (IH _ Hn) as (Hn' & Hle & Hall & Hin).
    split; [exact Hn'|].
    split; [apply (leb_trans h (maxStep h x)); assumption|].
    split.
    + constructor; [apply (leb_trans x (maxStep h x)); assumption
                   | exact Hall].
    + destruct Hin as [-> | Hin]; [|right; right; exact Hin].
      destruct Hor as [-> | ->]; [left; reflexivity | right; left; reflexivity].
Qed.

Lemma fold_minStep (xs : list float) (l : float) :
  is_nan l = false -> Forall (fun x => is_nan x = false) xs ->
  is_nan (fold_left minStep xs l) = false
  /\ (fold_left minStep xs l <=? l) = true
  /\ Forall (fun x => (fold_left minStep xs l <=? x) = true) xs
  /\ (fold_left minStep xs l = l \/ In (fold_left minStep xs l) xs).
Proof.
  intros Hl Hxs. revert l Hl.
  induction Hxs as [|x xs Hx Hxs IH]; intros l Hl; cbn [fold_left].
  - repeat split; auto using leb_refl.
  - destruct (minStep_spec l x Hl Hx) as (Hn & Hml & Hmx & Hor).
    destruct (IH _ Hn) as (Hn' & Hle & Hall & Hin).
    split; [exact Hn'|].
    split; [apply (leb_trans _ (minStep l x)); assumption|].
    split.
    + constructor; [apply (leb_trans _ (minStep l x)); assumption
                   | exact Hall].
    + destruct Hin as [-> | Hin]; [|right; right; exact Hin].
      destruct Hor as [-> | ->]; [left; reflexivity | right; left; reflexivity].
Qed.

Lemma amounts_valid (filtered : list InvoiceData) :
  Forall (fun x => is_nan x = false) (map ToNumber (amounts filtered)).
Proof.
  apply Forall_forall. intros x Hx.
  apply list_elem_of_In, in_map_iff in Hx as (a & <- & Ha).
  unfold amounts in Ha. apply filter_In in Ha as [_ Hv].
  unfold validAmount, isNaN in Hv.
  rewrite !andb_true_iff, !negb_true_iff in Hv. tauto.
Qed.

Lemma existsb_is_nan_false (xs : list float) :
  Forall (fun x => is_nan x = false) xs -> existsb is_nan xs = false.
Proof. induction 1 as [|x xs Hx _ IH]; cbn; [|rewrite Hx, IH]; reflexivity. Qed.

(** X15: outside the all-zero case, the maximum and the minimum of the
    statistics are amounts of the view, and every valid amount of the
    view lies between them. *)
Theorem extremes_bound_amounts (filtered : list InvoiceData) :
  amounts filtered <> [] ->
  (forall a, a ∈ amounts filtered ->
     (minAmount (stats filtered) <=? ToNumber a) = true
     /\ (ToNumber a <=? maxAmount (stats filtered)) = true)
  /\ (exists a, a ∈ amounts filtered
                /\ maxAmount (stats filtered) = ToNumber a)
  /\ (exists a, a ∈ amounts filtered
                /\ minAmount (stats filtered) = ToNumber a).
Proof.
  intros Ha. destruct (stats_regular filtered Ha) as (_ & _ & _ & -> & ->).
  pose proof (amounts_valid filtered) as Hv.
  unfold Math_max, Math_min. rewrite existsb_is_nan_false by exact Hv.
  fold maxStep. fold minStep.
  change (fun highest n : float =>
            if isPosZero n && isNegZero highest then n
            else if highest <? n then n else highest) with maxStep.
  change (fun lowest n : float =>
            if isNegZero n && isPosZero lowest then n
            else if n <? lowest then n else lowest) with minStep.
  destruct (fold_maxStep (map ToNumber (amounts filtered)) neg_infinity
              eq_refl Hv) as (_ & _ & Hmax & Hmaxin).
  destruct (fold_minStep (map ToNumber (amounts filtered)) infinity
              eq_refl Hv) as (_ & _ & Hmin & Hminin).
  rewrite Forall_forall in Hmax, Hmin.
  assert (Hfirst : exists a, a ∈ amounts filtered)
    by (destruct (amounts filtered) as [|a l]; [congruence|];
        exists a; left).
  destruct Hfirst as [a0 Ha0].
  assert (Hn0 : is_nan (ToNumber a0) = false).
  { rewrite Forall_forall in Hv.
    apply Hv, list_elem_of_In, in_map, list_elem_of_In, Ha0. }
  split; [|split].
  - intros a Hin%list_elem_of_In. split; [apply Hmin | apply Hmax];
      apply list_elem_of_In, in_map, Hin.
  - destruct Hmaxin as [E | (a & E & Hin)%in_map_iff].
    + exists a0. split; [exact Ha0|]. rewrite E. symmetry.
      apply leb_neg_infinity; [exact Hn0|]. rewrite <- E.
      apply Hmax, list_elem_of_In, in_map, list_elem_of_In, Ha0.
    + exists a. split; [apply list_elem_of_In, Hin | symmetry; exact E].
  - destruct Hminin as [E | (a & E & Hin)%in_map_iff].
    + exists a0. split; [exact Ha0|]. rewrite E. symmetry.
      apply infinity_leb; [exact Hn0|]. rewrite <- E.
      apply Hmin, list_elem_of_In, in_map, list_elem_of_In, Ha0.
    + exists a. split; [apply list_elem_of_In, Hin | symmetry; exact E].
Qed.

End ExtremeFacts.

(** ** The login form *)

Section LoginFacts.

Lemma lang_cat_inv (r s : regex) (w : jsstring) :
  lang (Cat r s) w <-> exists u v, w = u ++ v /\ lang r u /\ lang s v.
Proof.
  split.
  - inversion 1; subst. eauto.
  - intros (u & v & -> & Hu & Hv). constructor; assumption.
Qed.

Lemma lang_class_inv (p : N -> bool) (w : jsstring) :
  lang (Class p) w <-> exists c, w = [c] /\ p c = true.
Proof.
  split.
  - inversion 1; subst. eauto.
  - intros (c & -> & Hc). constructor. exact Hc.
Qed.

Lemma lang_alt_inv (r s : regex) (w : jsstring) :
  lang (Alt r s) w <-> lang r w \/ lang s w.
Proof.
  split.
  - inversion 1; subst; auto.
  - intros [H | H]; [apply lang_alt_l | apply lang_alt_r]; exact H.
Qed.

Lemma lang_star_cons_inv (r : regex) (c : N) (s : jsstring) :
  lang (Star r) (c :: s) ->
  exists u v, s = u ++ v /\ lang r (c :: u) /\ lang (Star r) v.
Proof.
  intros H. remember (Star r) as R eqn:ER. remember (c :: s) as w eqn:Ew.
  revert s Ew.
  induction H as [| | | | | |r' u v Hu _ Hv IHv]; try discriminate.
  intros s Ew. injection ER as ->. destruct u as [|c' u].
  - cbn in Ew. apply IHv; [reflexivity | exact Ew].
  - cbn in Ew. injection Ew as -> <-. eauto.
Qed.

Lemma nullable_lang (r : regex) : nullable r = true <-> lang r [].
Proof.
  induction r as [| |p|r IHr s IHs|r IHr s IHs|r IHr]; cbn.
  - split; [discriminate | inversion 1].
  - split; [constructor | reflexivity].
  - split; [discriminate | inversion 1].
  - rewrite andb_true_iff, IHr, IHs, lang_cat_inv. split.
    + intros [Hr Hs]. exists [], []. auto.
    + intros (u & v & E & Hu & Hv). symmetry in E.
      apply app_eq_nil in E as [-> ->]. auto.
  - rewrite orb_true_iff, IHr, IHs, lang_alt_inv. reflexivity.
  - split; [constructor | reflexivity].
Qed.

Lemma deriv_lang (c : N) (r : regex) (w : jsstring) :
  lang (deriv c r) w <-> lang r (c :: w).
Proof.
  revert w. induction r as [| |p|r IHr s IHs|r IHr s IHs|r IHr]; intros w;
    cbn [deriv].
  - split; inversion 1.
  - split; inversion 1.
  - rewrite lang_class_inv. destruct (p c) eqn:Hp.
    + split.
      * inversion 1; subst. exists c. auto.
      * intros (c' & [= <- ->] & _). constructor.
    + split; [inversion 1|]. intros (c' & [= <- ->] & Hc). congruence.
  - assert (Hleft : lang (Cat (deriv c r) s) w
                    <-> exists u v, w = u ++ v /\ lang r (c :: u) /\ lang s v).
    { rewrite lang_cat_inv. split; intros (u & v & E & Hu & Hv);
        exists u, v; rewrite IHr in *; auto. }
    rewrite (lang_cat_inv r s (c :: w)).
    destruct (nullable r) eqn:Hn.
    + rewrite lang_alt_inv, Hleft, IHs. split.
      * intros [(u & v & -> & Hu & Hv) | Hs].
        -- exists (c :: u), v. auto.
        -- exists [], (c :: w). apply nullable_lang in Hn. auto.
      * intros (u & v & E & Hu & Hv). destruct u as [|c' u].
        -- cbn in E. subst v. right. exact Hv.
        -- cbn in E. injection E as <- ->. left. eauto.
    + rewrite Hleft. split.
      * intros (u & v & -> & Hu & Hv). exists (c :: u), v. auto.
      * intros (u & v & E & Hu & Hv). destruct u as [|c' u].
        -- apply nullable_lang in Hu. congruence.
        -- cbn in E. injection E as <- ->. eauto.
  - rewrite !lang_alt_inv, IHr, IHs. reflexivity.
  - rewrite lang_cat_inv. split.
    + intros (u & v & -> & Hu & Hv). apply IHr in Hu.
      apply (lang_star_cons r (c :: u) v); assumption.
    + intros (u & v & -> & Hu & Hv)%lang_star_cons_inv.
      exists u, v. rewrite IHr. auto.
Qed.

Lemma RegExp_test_lang (r : regex) (s : jsstring) :
  RegExp_test r s = true <-> lang r s.
Proof.
  unfold RegExp_test. revert r.
  induction s as [|c s IH]; intros r; cbn [fold_left].
  - apply nullable_lang.
  - rewrite IH. apply deriv_lang.
Qed.

Lemma lang_star_class (p : N -> bool) (w : jsstring) :
  lang (Star (Class p)) w <-> Forall (fun c => p c = true) w.
Proof.
  split.
  - intros H. remember (Star (Class p)) as R eqn:ER.
    induction H as [| | | | | |r u v Hu _ Hv IHv]; try discriminate.
    + constructor.
    + injection ER as ->. apply lang_class_inv in Hu as (c & -> & Hc).
      constructor; [exact Hc | apply IHv; reflexivity].
  - induction 1 as [|c w Hc _ IH]; [constructor|].
    apply (lang_star_cons (Class p) [c] w); [constructor; exact Hc | exact IH].
Qed.

Lemma lang_plus_class (p : N -> bool) (w : jsstring) :
  lang (Plus (Class p)) w <-> w <> [] /\ Forall (fun c => p c = true) w.
Proof.
  unfold Plus. rewrite lang_cat_inv. split.
  - intros (u & v & -> & (c & -> & Hc)%lang_class_inv & Hv%lang_star_class).
    split; [discriminate | constructor; assumption].
  - intros [Hne Hall]. destruct Hall as [|c w Hc Hw]; [congruence|].
    exists [c], w. split; [reflexivity|].
    split; [constructor; exact Hc | apply lang_star_class, Hw].
Qed.

(** An e-mail address the pattern accepts: [a@b.c] with [a], [b] and [c]
    non-empty and free of white space and of [@]. *)
Lemma emailPattern_lang (w : jsstring) :
  lang emailPattern w <->
  exists a b c,
    w = a ++ 64%N :: b ++ 46%N :: c
    /\ a <> [] /\ b <> [] /\ c <> []
    /\ Forall (fun x => notSpaceNorAt x = true) (a ++ b ++ c).
Proof.
  unfold emailPattern. split.
  - intros (a & w1 & -> & [Ha Fa]%lang_plus_class & H1)%lang_cat_inv.
    apply lang_cat_inv in H1
      as (at_ & w2 & -> & (x & -> & Hx%N.eqb_eq)%lang_class_inv & H2).
    apply lang_cat_inv in H2
      as (b & w3 & -> & [Hb Fb]%lang_plus_class & H3).
    apply lang_cat_inv in H3
      as (dot & c & -> & (y & -> & Hy%N.eqb_eq)%lang_class_inv
          & [Hc Fc]%lang_plus_class).
    subst x y. exists a, b, c. cbn. rewrite !Forall_app. tauto.
  - intros (a & b & c & -> & Ha & Hb & Hc & Hall).
    rewrite !Forall_app in Hall. destruct Hall as (Fa & Fb & Fc).
    apply (lang_cat _ _ a); [apply lang_plus_class; auto|].
    apply (lang_cat _ _ [64%N]); [constructor; reflexivity|].
    apply (lang_cat _ _ b); [apply lang_plus_class; auto|].
    apply (lang_cat _ _ [46%N]); [constructor; reflexivity|].
    apply lang_plus_class; auto.
Qed.

(** X16: [validateForm] returns true exactly when the e-mail is of the
    form [a@b.c], where [a], [b] and [c] are non-empty and hold neither
    white space nor [@], and the password has at least 6 code units. *)
Theorem validateForm_accepts (email password : jsstring) :
  snd (validateForm email password) = true <->
  (exists a b c,
     email = a ++ 64%N :: b ++ 46%N :: c
     /\ a <> [] /\ b <> [] /\ c <> []
     /\ Forall (fun x => isWhiteSpace x = false /\ x <> 64%N) (a ++ b ++ c))
  /\ (6 <= length password)%nat.
Proof.
  assert (Hclass : forall l,
            Forall (fun x => notSpaceNorAt x = true) l
            <-> Forall (fun x => isWhiteSpace x = false /\ x <> 64%N) l).
  { intros l. apply Forall_iff. intros x. unfold notSpaceNorAt.
    rewrite negb_true_iff, orb_false_iff, N.eqb_neq. reflexivity. }
  transitivity (lang emailPattern email /\ (6 <= length password)%nat).
  - unfold validateForm. cbn [snd]. rewrite <- RegExp_test_lang.
    destruct email as [|e email]; cbn [truthy negb].
    { split; [discriminate|]. intros [H _]. cbn in H. discriminate. }
    destruct (RegExp_test emailPattern (e :: email)); cbn [negb];
      [|split; [discriminate | intros [? _]; discriminate]].
    destruct password as [|p password]; cbn [truthy negb length].
    { split; [discriminate | intros [_ H]; lia]. }
    destruct (Nat.ltb_spec (S (length password)) 6);
      split; try discriminate; try (intros [_ ?]; lia); auto.
  - rewrite emailPattern_lang.
    split; intros [(a & b & c & E & Ha & Hb & Hc & Hall) Hp];
      (split; [|exact Hp]); exists a, b, c; apply Hclass in Hall; auto.
Qed.

End LoginFacts.

(** ** Token storage *)

Section AuthFacts.

Variable toString : Z -> jsstring.
Variable Number : jsstring -> option Z.

Abbreviation setToken' := (setToken toString).
Abbreviation isTokenValid' := (isTokenValid Number).

Lemma token_keys_distinct :
  TOKEN_KEY <> EXPIRES_IN_KEY /\ TOKEN_KEY <> CREATE_TIME_KEY
  /\ EXPIRES_IN_KEY <> CREATE_TIME_KEY.
Proof. repeat split; discriminate. Qed.

(** X17: [getToken] returns the token [setToken] stored last, and
    nothing after [removeToken]; neither function touches a key other
    than the three token keys. *)
Theorem token_round_trip (now expiresIn : Z) (token : jsstring)
  (localStorage : Storage) :
  getToken (setToken' now token expiresIn localStorage) = Some token
  /\ getToken (removeToken (setToken' now token expiresIn localStorage)) = None
  /\ forall key : list N,
       key <> TOKEN_KEY -> key <> EXPIRES_IN_KEY -> key <> CREATE_TIME_KEY ->
       setToken' now token expiresIn localStorage !! key = localStorage !! key
       /\ removeToken localStorage !! key = localStorage !! key.
Proof.
  destruct token_keys_distinct as (H1 & H2 & H3).
  unfold getToken, setToken, removeToken. split; [|split].
  - rewrite !lookup_insert_ne by congruence. apply lookup_insert_eq.
  - rewrite !lookup_delete_ne by congruence. apply lookup_delete_eq.
  - intros key Hk1 Hk2 Hk3. split.
    + rewrite !lookup_insert_ne by congruence. reflexivity.
    + rewrite !lookup_delete_ne by congruence. reflexivity.
Qed.

Lemma removeToken_lookup (localStorage : Storage) :
  removeToken localStorage !! TOKEN_KEY = None
  /\ removeToken localStorage !! EXPIRES_IN_KEY = None
  /\ removeToken localStorage !! CREATE_TIME_KEY = None.
Proof.
  destruct token_keys_distinct as (H1 & H2 & H3). unfold removeToken.
  split; [|split].
  - rewrite !lookup_delete_ne by congruence. apply lookup_delete_eq.
  - rewrite lookup_delete_ne by congruence. apply lookup_delete_eq.
  - apply lookup_delete_eq.
Qed.

Lemma setToken_lookup (now expiresIn : Z) (token : jsstring)
  (localStorage : Storage) :
  setToken' now token expiresIn localStorage !! TOKEN_KEY = Some token
  /\ setToken' now token expiresIn localStorage !! EXPIRES_IN_KEY
     = Some (toString expiresIn)
  /\ setToken' now token expiresIn localStorage !! CREATE_TIME_KEY
     = Some (toString now).
Proof.
  destruct token_keys_distinct as (H1 & H2 & H3). unfold setToken.
  split; [|split].
  - rewrite !lookup_insert_ne by congruence. apply lookup_insert_eq.
  - rewrite lookup_insert_ne by congruence. apply lookup_insert_eq.
  - apply lookup_insert_eq.
Qed.


(** X19: after [removeToken] there is no token and [isTokenValid] is
    false, whatever the storage held and whatever the time; and the
    request interceptor then passes every configuration on as it is. *)
Theorem removeToken_logs_out (now : Z) (localStorage : Storage)
  (config : RequestConfig) :
  getToken (removeToken localStorage) = None
  /\ isTokenValid' now (removeToken localStorage) = false
  /\ onRequest (removeToken localStorage) config = config.
Proof.
  destruct (removeToken_lookup localStorage) as (Ht & He & Hc).
  unfold isTokenValid, onRequest, getToken. unfold jsstring in *.
  rewrite Ht. auto.
Qed.

(** X20: with a non-empty token stored and headers present, the request
    interceptor sets [Authorization] to [Bearer] and the token, and
    leaves every other header and the rest of the configuration as they
    are; without headers it changes nothing. *)
Theorem onRequest_attaches_token (now expiresIn : Z) (token : jsstring)
  (localStorage : Storage) (config : RequestConfig)
  (h : gmap (list N) (list N)) :
  token <> [] ->
  let stored := setToken' now token expiresIn localStorage in
  (headers config = Some h ->
   url (onRequest stored config) = url config
   /\ exists h',
        headers (onRequest stored config) = Some h'
        /\ h' !! lit "Authorization" = Some (lit "Bearer " ++ token)
        /\ forall name : list N,
             name <> lit "Authorization" -> h' !! name = h !! name)
  /\ (headers config = None -> onRequest stored config = config).
Proof.
  intros Hne stored. unfold onRequest, getToken. subst stored.
  destruct (setToken_lookup now expiresIn token localStorage) as (-> & _).
  rewrite (proj2 (truthy_true _) Hne). split.
  - intros ->. cbn [url headers]. split; [reflexivity|].
    eexists. split; [reflexivity|]. split; [apply lookup_insert_eq|].
    intros name Hn. apply lookup_insert_ne. congruence.
  - intros ->. reflexivity.
Qed.

(** X21: an error response with status 401 removes the token, sends the
    browser to [/login] and raises one alert, so that [isTokenValid] is
    false afterwards; an error with any other status, or with no
    response, leaves the browser as it was. *)
Theorem unauthorized_response_logs_out (status : option Z) (b : Browser)
  (now : Z) :
  (status = Some 401 ->
   getToken (localStorage (onResponseError status b)) = None
   /\ isTokenValid' now (localStorage (onResponseError status b)) = false
   /\ href (onResponseError status b) = lit "/login"
   /\ alerts (onResponseError status b) = alerts b ++ [loginExpired])
  /\ (status <> Some 401 -> onResponseError status b = b).
Proof.
  split.
  - intros ->. cbn [onResponseError localStorage href alerts].
    destruct (removeToken_lookup (localStorage b)) as (Ht & _).
    unfold isTokenValid, getToken. unfold jsstring in *. rewrite Ht. auto.
  - intros Hs. unfold onResponseError.
    destruct status as [[|p|p]|]; try reflexivity.
    destruct (decide (p = 401%positive)) as [-> | Hp]; [congruence|].
    do 9 (destruct p as [p|p|]; try reflexivity). congruence.
Qed.

End AuthFacts.

(** The decimal instances read back what they write. *)






(** ** Choosing a file *)

Section UploadFacts.

Variable toLowerCase : jsstring -> jsstring.

Lemma Array_includes_elem (l : list jsstring) (x : jsstring) :
  Array_includes l x = true <-> x ∈ l.
Proof. apply Set_has_elem. Qed.

Lemma String_split_nonempty (sep : N) (s : jsstring) : String_split sep s <> [].
Proof.
  induction s as [|c s IH]; cbn; [discriminate|].
  destruct (c =? sep)%N; [discriminate|].
  destruct (String_split sep s); discriminate.
Qed.

Lemma String_split_no_sep (sep : N) (s : jsstring) :
  sep ∉ s -> String_split sep s = [s].
Proof.
  induction s as [|c s IH]; intros Hs; cbn; [reflexivity|].
  apply not_elem_of_cons in Hs as [Hc Hs].
  destruct (N.eqb_spec c sep) as [-> | _]; [congruence|].
  rewrite IH by exact Hs. reflexivity.
Qed.

Lemma String_split_app (sep : N) (a b : jsstring) :
  exists p pre,
    String_split sep (a ++ sep :: b) = (p :: pre) ++ String_split sep b.
Proof.
  induction a as [|c a (p & pre & IH)]; cbn.
  - rewrite N.eqb_refl. exists [], []. reflexivity.
  - destruct (c =? sep)%N.
    + exists [], (p :: pre). rewrite IH. reflexivity.
    + rewrite IH. exists (c :: p), pre. reflexivity.
Qed.

(** The last component of a name split at its dots is what follows the
    last dot, or the whole name when it has no dot. *)
Lemma pop_split_extension (stem ext : jsstring) :
  46%N ∉ ext ->
  stem = [] \/ (exists stem', stem = stem' ++ [46%N]) ->
  Array_pop (String_split 46 (stem ++ ext)) = Some ext.
Proof.
  intros Hext [-> | [stem' ->]]; unfold Array_pop.
  - cbn. rewrite String_split_no_sep by exact Hext. reflexivity.
  - rewrite <- app_assoc. cbn.
    destruct (String_split_app 46 stem' ext) as (p & pre & ->).
    rewrite String_split_no_sep by exact Hext. apply last_snoc.
Qed.

(** X22: a chosen file is kept exactly when its type is one of the three
    spreadsheet types or its extension, in lower case, is xlsx, xls or
    csv, and its size is at most 10 MiB; the extension is what follows
    the last dot of the name, or the whole name when it has no dot.  A
    file that is kept leaves no error message; a file that is not kept
    leaves no selected file and a message. *)
Theorem file_is_kept_iff (file : File.t) (stem ext : jsstring)
  (st : FileChoice) :
  File.name file = stem ++ ext ->
  46%N ∉ ext ->
  stem = [] \/ (exists stem', stem = stem' ++ [46%N]) ->
  let chosen := handleFileUpload toLowerCase (Some file) st in
  (selectedFile chosen = Some file
   <-> (File.type file ∈ allowedTypes \/ toLowerCase ext ∈ allowedExtensions)
       /\ File.size file <= 10485760)
  /\ (selectedFile chosen = Some file -> fileError chosen = [])
  /\ (selectedFile chosen <> Some file ->
      selectedFile chosen = None /\ fileError chosen <> []).
Proof.
  intros Hname Hext Hstem chosen. subst chosen.
  unfold handleFileUpload, isTypeValid, fileExtension.
  rewrite Hname, pop_split_extension by assumption.
  cbn [option_map default from_option]. unfold id.
  rewrite <- !Array_includes_elem.
  destruct (Array_includes allowedTypes (File.type file)
            || Array_includes allowedExtensions (toLowerCase ext)) eqn:Et;
    cbn [negb].
  - apply orb_true_iff in Et.
    destruct (File.size file >? maxSize) eqn:Es;
      cbn [selectedFile fileError].
    + apply Z.gtb_lt in Es. unfold maxSize in Es.
      split; [split; [discriminate | intros [_ Hs]; lia]|].
      split; [discriminate|]. intros _. split; [reflexivity | discriminate].
    + rewrite Z.gtb_ltb in Es. apply Z.ltb_ge in Es. unfold maxSize in Es.
      split; [split; [intros _; split; [exact Et | lia] | reflexivity]|].
      split; [reflexivity | congruence].
  - apply orb_false_iff in Et as [E1 E2]. cbn [selectedFile fileError].
    rewrite E1, E2.
    split; [split; [discriminate | intros [[Hc | Hc] _]; discriminate]|].
    split; [discriminate|]. intros _. split; [reflexivity | discriminate].
Qed.

End UploadFacts.

(** ** The download request *)

Section DownloadFacts.





End DownloadFacts.

(** ** Instances of the properties above *)

(** X2 at 25 records, page 3. *)
Lemma page_sizes_witness :
  (1 <= length (currentData Sample.twentyFiveRecords 3) <= 10)%nat.
Proof.
  apply (page_sizes Sample.twentyFiveRecords 3).
  change (totalPages Sample.twentyFiveRecords) with 3. lia.
Defined.

(** X4 at 25 records, page 1, the next button. *)
Lemma disabled_iff_click_is_idle_witness :
  1 <= snd (onClick nextPage Sample.twentyFiveRecords 1)
  <= totalPages Sample.twentyFiveRecords.
Proof.
  apply (disabled_iff_click_is_idle nextPage Sample.twentyFiveRecords 1).
  change (totalPages Sample.twentyFiveRecords) with 3. lia.
Defined.

(** X5 at 25 records, page 1. *)
Lemma next_previous_round_trip_witness :
  snd (onClick previousPage Sample.twentyFiveRecords
         (snd (onClick nextPage Sample.twentyFiveRecords 1))) = 1.
Proof.
  apply (proj1 (next_previous_round_trip Sample.twentyFiveRecords 1)).
  change (totalPages Sample.twentyFiveRecords) with 3. lia.
Defined.

(** X6 at 25 records, nothing set. *)
Lemma no_active_filter_shows_all_witness :
  view Sample.toLowerCase Sample.parseFloat Sample.tzShanghai
    Sample.legacyParse (Sample.noFilters Sample.twentyFiveRecords 1)
  = Sample.twentyFiveRecords.
Proof.
  apply (no_active_filter_shows_all Sample.toLowerCase Sample.parseFloat
           Sample.tzShanghai Sample.legacyParse
           (Sample.noFilters Sample.twentyFiveRecords 1)).
  reflexivity.
Defined.

(** X7 at 25 records, a keyword set, page 3. *)
Lemma clearFilters_shows_all_witness :
  currentPage
    (recompute Sample.toLowerCase Sample.parseFloat Sample.tzShanghai
       Sample.legacyParse
       (clearFilters
          (applyChange (setSearchKeyword (lit "zzz"))
             (Sample.noFilters Sample.twentyFiveRecords 3)))) = 1.
Proof.
  apply (clearFilters_shows_all Sample.toLowerCase Sample.parseFloat
           Sample.tzShanghai Sample.legacyParse
           (applyChange (setSearchKeyword (lit "zzz"))
              (Sample.noFilters Sample.twentyFiveRecords 3))).
  discriminate.
Defined.

(** X8 at a keyword of two spaces. *)
Lemma blank_keyword_is_inactive_witness :
  hasActiveFilters
    (applyChange (setSearchKeyword (lit "  "))
       (Sample.noFilters Sample.twentyFiveRecords 1)) = true.
Proof.
  apply (blank_keyword_is_inactive Sample.toLowerCase Sample.parseFloat
           Sample.tzShanghai Sample.legacyParse
           (Sample.noFilters Sample.twentyFiveRecords 1) (lit "  ")).
  - repeat constructor.
  - discriminate.
Defined.

(** X9 at one record, its product selected. *)
Lemma view_records_match_witness :
  产品名称 (Sample.record "A-1" "Acme" "Bolt" "2024-01-05" (Num 100))
  = lit "Bolt".
Proof.
  apply (view_records_match Sample.toLowerCase Sample.parseFloat
           Sample.tzShanghai Sample.legacyParse
           (applyChange (setSelectedProduct (lit "Bolt"))
              (Sample.noFilters
                 [Sample.record "A-1" "Acme" "Bolt" "2024-01-05" (Num 100)]
                 1))).
  - apply list_elem_of_In. left. reflexivity.
  - discriminate.
Defined.

(** X11 at 25 records, a product chosen. *)
Lemma setting_a_filter_narrows_witness :
  view Sample.toLowerCase Sample.parseFloat Sample.tzShanghai
    Sample.legacyParse
    (applyChange (setSelectedProduct (lit "Nut"))
       (Sample.noFilters Sample.twentyFiveRecords 1))
  `sublist_of`
  view Sample.toLowerCase Sample.parseFloat Sample.tzShanghai
    Sample.legacyParse (Sample.noFilters Sample.twentyFiveRecords 1).
Proof.
  apply (setting_a_filter_narrows Sample.toLowerCase Sample.parseFloat
           Sample.tzShanghai Sample.legacyParse
           (setSelectedProduct (lit "Nut"))
           (Sample.noFilters Sample.twentyFiveRecords 1)).
  reflexivity.
Defined.

(** X12 at 25 records of product Bolt, on page 3. *)
Lemma suggestion_matches_a_record_witness :
  pageAfter Sample.toLowerCase Sample.parseFloat Sample.tzShanghai
    Sample.legacyParse
    (applyChange (setSelectedProduct (lit "Bolt"))
       (Sample.noFilters Sample.twentyFiveRecords 3)) = 1.
Proof.
  apply (suggestion_matches_a_record Sample.toLowerCase Sample.parseFloat
           Sample.tzShanghai Sample.legacyParse
           (Sample.noFilters Sample.twentyFiveRecords 3) (lit "Bolt")).
  - reflexivity.
  - apply list_elem_of_In. vm_compute. left. reflexivity.
Defined.

(** X14 at two records, one without issuing company. *)
Lemma company_count_and_list_witness :
  (length (uniqueFilteredCompanies
             [Sample.record "A-1" "Acme" "Bolt" "2024-01-05" (Num 100);
              mkInvoice (lit "A-2") [] (lit "Buyer") (lit "2024-01-06") (lit "Nut")
                None 1%float (Num 200)])
   <= companyCount
        (stats [Sample.record "A-1" "Acme" "Bolt" "2024-01-05" (Num 100);
                mkInvoice (lit "A-2") [] (lit "Buyer") (lit "2024-01-06") (lit "Nut")
                None 1%float (Num 200)])
   <= length (uniqueFilteredCompanies
                [Sample.record "A-1" "Acme" "Bolt" "2024-01-05" (Num 100);
                 mkInvoice (lit "A-2") [] (lit "Buyer") (lit "2024-01-06") (lit "Nut")
                None 1%float (Num 200)]) + 1)%nat.
Proof.
  apply (company_count_and_list
           [Sample.record "A-1" "Acme" "Bolt" "2024-01-05" (Num 100);
            mkInvoice (lit "A-2") [] (lit "Buyer") (lit "2024-01-06") (lit "Nut")
                None 1%float (Num 200)]).
  vm_compute. discriminate.
Defined.

(** X15 at amounts 100, NaN and 300. *)
Lemma extremes_bound_amounts_witness :
  exists a,
    a ∈ amounts [Sample.record "A-1" "Acme" "Bolt" "2024-01-05" (Num 100);
                 Sample.record "A-2" "Acme" "Nut" "2024-01-06" (Num nan);
                 Sample.record "A-3" "Zeta" "Nut" "2024-01-07" (Num 300)]
    /\ maxAmount
         (stats [Sample.record "A-1" "Acme" "Bolt" "2024-01-05" (Num 100);
                 Sample.record "A-2" "Acme" "Nut" "2024-01-06" (Num nan);
                 Sample.record "A-3" "Zeta" "Nut" "2024-01-07" (Num 300)])
       = ToNumber a.
Proof.
  apply (extremes_bound_amounts
           [Sample.record "A-1" "Acme" "Bolt" "2024-01-05" (Num 100);
            Sample.record "A-2" "Acme" "Nut" "2024-01-06" (Num nan);
            Sample.record "A-3" "Zeta" "Nut" "2024-01-07" (Num 300)]).
  vm_compute. discriminate.
Defined.

(** X17 at an empty storage. *)
Lemma token_round_trip_witness :
  getToken (setToken SampleNumber.toString 0 (lit "abc") 3600 ∅)
  = Some (lit "abc").
Proof.
  apply (token_round_trip SampleNumber.toString 0 3600 (lit "abc") ∅).
Defined.


(** X20 at a configuration without headers of its own. *)
Lemma onRequest_attaches_token_witness :
  url (onRequest (setToken SampleNumber.toString 0 (lit "abc") 3600 ∅)
         (mkConfig (lit "/login") (Some ∅))) = lit "/login".
Proof.
  apply (onRequest_attaches_token SampleNumber.toString 0 3600 (lit "abc") ∅
           (mkConfig (lit "/login") (Some ∅)) ∅).
  - discriminate.
  - reflexivity.
Defined.

(** X21 at a 401. *)
Lemma unauthorized_response_logs_out_witness :
  href (onResponseError (Some 401)
          (mkBrowser (setToken SampleNumber.toString 0 (lit "abc") 3600 ∅)
             (lit "/dashboard") []))
  = lit "/login".
Proof.
  apply (unauthorized_response_logs_out SampleNumber.Number (Some 401)
           (mkBrowser (setToken SampleNumber.toString 0 (lit "abc") 3600 ∅)
              (lit "/dashboard") []) 0).
  reflexivity.
Defined.

(** X22: [report.CSV] of 1024 bytes, of unknown type. *)
Lemma file_is_kept_iff_witness :
  selectedFile
    (handleFileUpload Sample.toLowerCase
       (Some (File.mk (lit "report.CSV") [] 1024))
       (mkFileChoice None [] []))
  = Some (File.mk (lit "report.CSV") [] 1024).
Proof.
  apply (file_is_kept_iff Sample.toLowerCase
           (File.mk (lit "report.CSV") [] 1024) (lit "report.") (lit "CSV")
           (mkFileChoice None [] [])).
  - reflexivity.
  - intros H%list_elem_of_In. cbn in H. intuition discriminate.
  - right. exists (lit "report"). reflexivity.
  - split; [|cbn; lia]. right. apply list_elem_of_In. cbn. auto.
Defined.

